(** * Cloudflare R2 upload helper: a shallow embedding

    The development follows [src/r2_uploader.py] (class [R2Uploader],
    [upload_video_to_r2]) and [r2_upload_example.py] ([upload_single_file],
    [upload_directory]).

    Conventions.
    - A Python [str] is a list of characters ([list ascii]); paths are the
      POSIX flavour of [os.path] and [pathlib].  Non-ASCII text is carried as
      bytes above 127, which the operations below leave alone; [lower] and
      [strip] are the ASCII part of Python's.
    - Exceptions are [Exception] instances; log lines are left out.
    - A result dictionary is a finite map from field names to Python values.
    - The file system, the storage client and [os.remove] are the outside
      world: the file system is a finite map from paths to sizes, and the two
      effectful calls are answered by oracles that see the whole history. *)

From Stdlib Require Import ZArith Ascii String.
From stdpp Require Import base option list gmap strings.

Local Open Scope char_scope.

Abbreviation str := (list ascii).

(** String literals of the source, as character lists. *)
Definition lit (s : string) : str := list_ascii_of_string s.

(** ** Python string primitives *)

Module Py.

(** [s.startswith(pre)]. *)
Fixpoint startswith (s pre : str) : bool :=
  match pre, s with
  | [], _ => true
  | _ :: _, [] => false
  | a :: pre', b :: s' => if decide (a = b) then startswith s' pre' else false
  end.

(** [s.find(sub)]: the lowest index at which [sub] occurs, [None] for -1. *)
Fixpoint find (s sub : str) : option nat :=
  match s with
  | [] => if startswith [] sub then Some 0 else None
  | _ :: s' => if startswith s sub then Some 0 else S <$> find s' sub
  end.

(** [sub in s]. *)
Definition contains (s sub : str) : bool :=
  match find s sub with Some _ => true | None => false end.

(** [s.split(sep)] for a non-empty [sep]: the loop of CPython, which cuts at
    the leftmost occurrence and resumes after it.  Each round consumes at
    least one character, so [length s] rounds are enough ([split_unfold]). *)
Fixpoint split_loop (fuel : nat) (s sep : str) : list str :=
  match find s sep, fuel with
  | Some pos, S fuel' =>
      take pos s :: split_loop fuel' (drop (pos + length sep) s) sep
  | _, _ => [s]
  end.

Definition split (s sep : str) : list str := split_loop (length s) s sep.

(** [s.lstrip(chars)] and [s.rstrip(chars)]: [chars] is a set of characters. *)
Fixpoint lstrip (s chars : str) : str :=
  match s with
  | [] => []
  | c :: s' => if bool_decide (c ∈ chars) then lstrip s' chars else s
  end.

Definition rstrip (s chars : str) : str := reverse (lstrip (reverse s) chars).

(** [s.replace(old, new)] where [old] and [new] are single characters, the
    only way the source calls it. *)
Definition replace (s : str) (old new : ascii) : str :=
  (λ c, if decide (c = old) then new else c) <$> s.

(** [sep.join(parts)]. *)
Fixpoint join (sep : str) (parts : list str) : str :=
  match parts with
  | [] => []
  | p :: rest =>
      match rest with
      | [] => p
      | _ :: _ => p ++ sep ++ join sep rest
      end
  end.

(** [s.rfind(c)] for a single character [c]. *)
Fixpoint rfind (s : str) (c : ascii) : option nat :=
  match s with
  | [] => None
  | a :: s' =>
      match rfind s' c with
      | Some i => Some (S i)
      | None => if decide (a = c) then Some 0 else None
      end
  end.

(** [c.lower()] on ASCII: only [A]..[Z] move. *)
Definition lower_char (c : ascii) : ascii :=
  let n := nat_of_ascii c in
  if ((65 <=? n) && (n <=? 90))%nat then ascii_of_nat (n + 32) else c.

Definition lower (s : str) : str := lower_char <$> s.

(** [s.strip()]: white space off both ends. *)
Definition whitespace : str :=
  [" "; "009"; "010"; "011"; "012"; "013"; "028"; "029"; "030"; "031"].

Definition strip (s : str) : str := rstrip (lstrip s whitespace) whitespace.

End Py.

(** ** [os.path] and [pathlib], POSIX flavour *)

Module OsPath.

(** [os.path.basename(p)]: [p[p.rfind('/') + 1:]]. *)
Definition basename (p : str) : str :=
  match Py.rfind p "/" with
  | Some i => drop (S i) p
  | None => p
  end.

(** [os.path.join(a, b)]. *)
Definition join (a b : str) : str :=
  if Py.startswith b ["/"] then b
  else if bool_decide (a = []) || Py.startswith (reverse a) ["/"] then a ++ b
  else a ++ "/" :: b.

(** [Path(p).parts] without the root: empty components and ["."] vanish. *)
Definition tail_parts (p : str) : list str :=
  filter (λ x, x ≠ [] ∧ x ≠ ["."]) (Py.split p ["/"]).

(** [Path(p).name]: the last component, [''] when there is none. *)
Definition name (p : str) : str := default [] (last (tail_parts p)).

(** [Path(p).suffix] (pathlib up to Python 3.13): from the last dot of the
    name on, unless that dot opens or closes the name. *)
Definition suffix (p : str) : str :=
  let n := name p in
  match Py.rfind n "." with
  | Some i => if ((0 <? i) && (i + 1 <? length n))%nat then drop i n else []
  | None => []
  end.

(** [Path(p).parts]: the root, if any, then the components. *)
Definition parts (p : str) : list str :=
  let root :=
    if Py.startswith p ["/"; "/"] && negb (Py.startswith p ["/"; "/"; "/"])
    then [["/"; "/"]]
    else if Py.startswith p ["/"] then [["/"]] else [] in
  root ++ tail_parts p.

End OsPath.

(** ** Object key derivation ([upload_video_to_r2], lines 361-369) *)

Definition downloads : str := lit "downloads".

Definition relative_path (file_path : str) : str :=
  if Py.contains file_path downloads then
    let parts := Py.split file_path downloads in
    if (1 <? length parts)%nat then
      match parts !! 1 with
      | Some p => Py.lstrip p ["/"; "\"]
      | None => file_path
      end
    else file_path
  else file_path.

Definition object_name_of (file_path : str) : str :=
  Py.replace (relative_path file_path) "\" "/".

(** What the specification asks of a path that holds the marker: all the
    text after the (first) marker, leading separators stripped, backslashes
    turned into slashes. *)
Definition suffix_after_marker (file_path : str) : str :=
  match Py.find file_path downloads with
  | Some i => drop (i + length downloads) file_path
  | None => file_path
  end.

Definition spec_object_key (file_path : str) : str :=
  Py.replace (Py.lstrip (suffix_after_marker file_path) ["/"%char; "\"%char])
             "\" "/".

(** A key is relative when it does not start at the root. *)
Definition is_relative (key : str) : Prop := Py.startswith key ["/"%char] = false.


(** ** Python values, result dictionaries and exceptions *)

Local Close Scope char_scope.
Local Open Scope string_scope.
Local Open Scope list_scope.

Inductive value :=
  | VBool (b : bool)
  | VStr (s : str)
  | VInt (n : Z).

(** A result dictionary: field name to value. *)
Abbreviation result := (gmap string value).

(** Truth value of [d.get(k)]: a missing key gives [None], which is false. *)
Definition truthy (v : option value) : bool :=
  match v with
  | None => false
  | Some (VBool b) => b
  | Some (VStr s) => negb (bool_decide (s = []))
  | Some (VInt n) => negb (n =? 0)%Z
  end.

(** [e.response.get('Error', {})] of a [ClientError]: its [Code] and
    [Message] entries, each possibly missing. *)
Record error_entry := { Code : option str; Message : option str }.

(** The exceptions ([Exception] instances) the modelled calls can raise, each
    with its [str(e)].  [ClientError] also carries [e.response.get('Error')]. *)
Inductive exn :=
  | ClientError (error : option error_entry) (text : str)
  | OSError (text : str)
  | OtherException (text : str).

Definition exn_text (e : exn) : str :=
  match e with
  | ClientError _ t | OSError t | OtherException t => t
  end.

(** ** The outside world *)

(** [ExtraArgs] of the storage client's upload call. *)
Record extra_args := {
  ContentType : option str;
  Metadata : option (gmap string str)
}.

(** One call of [s3_client.upload_file(file, bucket, key, ExtraArgs=...)]. *)
Record put_request := {
  put_file : str;
  put_bucket : str;
  put_key : str;
  put_extra : extra_args
}.

(** [files]: every existing path with its size in bytes.  [puts] and
    [removes] record, oldest first, the upload calls made to the storage
    client and the [os.remove] calls made. *)
Record world := {
  files : gmap str Z;
  puts : list put_request;
  removes : list str
}.

(** Computations that read and change the world and may raise. *)
Inductive outcome (A : Type) :=
  | Return (a : A)
  | Raise (e : exn).
Arguments Return {A} a.
Arguments Raise {A} e.

Definition M (A : Type) : Type := world → outcome A * world.

#[global] Instance M_ret : MRet M := λ A a w, (Return a, w).

#[global] Instance M_bind : MBind M := λ A B k m w,
  match m w with
  | (Return a, w') => k a w'
  | (Raise e, w') => (Raise e, w')
  end.

Definition raise {A} (e : exn) : M A := λ w, (Raise e, w).

(** [try: body  except Exception as e: handler(e)]. *)
Definition try_except {A} (body : M A) (handler : exn → M A) : M A := λ w,
  match body w with
  | (Return a, w') => (Return a, w')
  | (Raise e, w') => handler e w'
  end.

(** [os.path.exists(p)]. *)
Definition os_path_exists (p : str) : M bool := λ w,
  (Return (bool_decide (is_Some (files w !! p))), w).

(** [os.path.getsize(p)]: raises [OSError] on a missing path. *)
Definition os_path_getsize (p : str) : M Z := λ w,
  match files w !! p with
  | Some n => (Return n, w)
  | None => (Raise (OSError (lit "No such file or directory")), w)
  end.

(** ** class R2Uploader *)

Record R2Uploader := {
  account_id : str;
  bucket_name : str;
  public_url : option str;
  endpoint_url : str
}.

(** [R2Uploader.__init__], without the client handle. *)
Definition R2Uploader_init (account bucket : str) (endpoint public : option str)
  : R2Uploader :=
  {| account_id := account;
     bucket_name := bucket;
     public_url := public;
     endpoint_url :=
       default (lit "https://" ++ account ++ lit ".r2.cloudflarestorage.com")
               endpoint |}.

(** [R2Uploader._get_content_type], lines 258-284. *)
Definition content_types : gmap str str :=
  list_to_map
    [ (lit ".mp4", lit "video/mp4");
      (lit ".mkv", lit "video/x-matroska");
      (lit ".flv", lit "video/x-flv");
      (lit ".ts", lit "video/mp2t");
      (lit ".m3u8", lit "application/vnd.apple.mpegurl");
      (lit ".mp3", lit "audio/mpeg");
      (lit ".m4a", lit "audio/mp4");
      (lit ".aac", lit "audio/aac");
      (lit ".txt", lit "text/plain");
      (lit ".json", lit "application/json") ].

Definition _get_content_type (file_path : str) : str :=
  let ext := Py.lower (OsPath.suffix file_path) in
  default (lit "application/octet-stream") (content_types !! ext).

Definition set_files (fs : gmap str Z) (w : world) : world :=
  {| files := fs; puts := puts w; removes := removes w |}.

Definition log_put (req : put_request) (w : world) : world :=
  {| files := files w; puts := puts w ++ [req]; removes := removes w |}.

Definition log_remove (p : str) (w : world) : world :=
  {| files := files w; puts := puts w; removes := removes w ++ [p] |}.

Section Uploads.

(** What the storage client does with an upload call: [None] when it
    returns, [Some e] when it raises [e]. *)
Variable s3_upload : world → put_request → option exn.

(** Why [os.remove] of an existing path fails, if it does. *)
Variable remove_error : world → str → option exn.

(** The text of [int(asyncio.get_event_loop().time())]. *)
Variable clock : world → str.

(** [os.path.isdir] and the [(root, dirs, files)] triples of [os.walk]. *)
Variable os_path_isdir : world → str → bool.
Variable os_walk : world → str → list (str * list str * list str).

Definition s3_client_upload_file (req : put_request) : M () := λ w,
  match s3_upload w req with
  | None => (Return (), log_put req w)
  | Some e => (Raise e, log_put req w)
  end.

(** [os.remove(p)]. *)
Definition os_remove (p : str) : M () := λ w,
  match files w !! p with
  | None => (Raise (OSError (lit "No such file or directory")), log_remove p w)
  | Some _ =>
      match remove_error w p with
      | Some e => (Raise e, log_remove p w)
      | None => (Return (), set_files (delete p (files w)) (log_remove p w))
      end
  end.

Definition file_not_found : result :=
  {[ "success" := VBool false; "error" := VStr (lit "File not found") ]}.

(** [R2Uploader.upload_file], lines 79-166. *)
Definition upload_file (self : R2Uploader) (file_path : str)
    (object_name : option str) (metadata : option (gmap string str))
    (content_type : option str) : M result :=
  found ← os_path_exists file_path;
  if negb found then mret file_not_found
  else
    let object_name := default (OsPath.basename file_path) object_name in
    file_size ← os_path_getsize file_path;
    let content_type := default (_get_content_type file_path) content_type in
    let extra :=
      {| ContentType :=
           if bool_decide (content_type = []) then None else Some content_type;
         Metadata :=
           match metadata with
           | Some m => if bool_decide (m = ∅) then None else Some m
           | None => None
           end |} in
    try_except
      (s3_client_upload_file
         {| put_file := file_path; put_bucket := bucket_name self;
            put_key := object_name; put_extra := extra |};;
       let result : result :=
         {[ "success" := VBool true;
            "object_name" := VStr object_name;
            "size" := VInt file_size;
            "bucket" := VStr (bucket_name self) ]} in
       mret
         match public_url self with
         | Some url =>
             if bool_decide (url = []) then result
             else <["url" := VStr (Py.rstrip url ["/"%char] ++ "/"%char :: object_name)]>
                    result
         | None => result
         end)
      (λ e,
         match e with
         | ClientError error text =>
             let error_code := default (lit "Unknown") (error ≫= Code) in
             let error_msg := default text (error ≫= Message) in
             mret {[ "success" := VBool false;
                     "error" := VStr (error_code ++ lit ": " ++ error_msg);
                     "object_name" := VStr object_name ]}
         | _ =>
             mret {[ "success" := VBool false;
                     "error" := VStr (exn_text e);
                     "object_name" := VStr object_name ]}
         end).

(** [upload_file_async]: the same call, run on a worker of the event loop. *)
Definition upload_file_async := upload_file.

(** [upload_video_to_r2], lines 337-395. *)
Definition upload_video_to_r2 (uploader : R2Uploader) (file_path : str)
    (platform anchor_name : str) (delete_after_upload : bool) : M result :=
  found ← os_path_exists file_path;
  if negb found then mret file_not_found
  else
    let object_name := object_name_of file_path in
    timestamp ← (λ w, (Return (clock w), w));
    let metadata : gmap string str :=
      {[ "platform" := platform;
         "anchor" := anchor_name;
         "upload_timestamp" := timestamp ]} in
    result ← upload_file_async uploader file_path (Some object_name)
               (Some metadata) None;
    if truthy (result !! "success") && delete_after_upload then
      try_except
        (os_remove file_path;;
         mret (<["local_file_deleted" := VBool true]> result))
        (λ _, mret (<["local_file_deleted" := VBool false]> result))
    else mret result.

(** [upload_single_file] of the example script, lines 64-89. *)
Definition upload_single_file (uploader : R2Uploader) (file_path : str)
    (platform anchor : str) (delete_after : bool) : M bool :=
  found ← os_path_exists file_path;
  if negb found then mret false
  else
    result ← upload_video_to_r2 uploader file_path platform anchor delete_after;
    mret (truthy (result !! "success")).

(** *** [upload_directory] of the example script, lines 92-139 *)

Definition default_video_extensions : gset str :=
  list_to_set
    (lit <$> [".mp4"; ".mkv"; ".flv"; ".ts"; ".m3u8"; ".avi"; ".mov"; ".wmv"]).

(** Lines 98-104: the extension set in force. *)
Definition video_extensions (format_filter : option str) : gset str :=
  match format_filter with
  | Some f =>
      if bool_decide (f = []) then default_video_extensions
      else
        let formats :=
          (λ fmt, "."%char :: Py.lower (Py.strip fmt)) <$> Py.split f (lit ",")
        in list_to_set formats
  | None => default_video_extensions
  end.

(** Lines 106-111: the files of the walk whose extension is in the set. *)
Definition find_video_files (exts : gset str)
    (walk : list (str * list str * list str)) : list str :=
  '(root, _, files) ← walk;
  file ← files;
  if bool_decide (Py.lower (OsPath.suffix file) ∈ exts)
  then [OsPath.join root file] else [].

(** Lines 120-131: platform and anchor read off the path. *)
Definition infer_labels (file_path : str) : str * str :=
  let parts := OsPath.parts file_path in
  let unknown := (lit "unknown", lit "unknown") in
  if (3 <=? length parts)%nat && bool_decide (downloads ∈ parts) then
    match list_find (λ x, x = downloads) parts with
    | Some (idx, _) =>
        match parts !! (idx + 1)%nat, parts !! (idx + 2)%nat with
        | Some platform, Some anchor => (platform, anchor)
        | _, _ => unknown
        end
    | None => unknown
    end
  else unknown.

(** Lines 116-137: the upload loop with its two counters. *)
Fixpoint upload_loop (uploader : R2Uploader) (delete_after : bool)
    (video_files : list str) (success_count fail_count : nat)
  : M (nat * nat) :=
  match video_files with
  | [] => mret (success_count, fail_count)
  | file_path :: rest =>
      let labels := infer_labels file_path in
      success ← upload_single_file uploader file_path labels.1 labels.2
                  delete_after;
      if success : bool
      then upload_loop uploader delete_after rest (S success_count) fail_count
      else upload_loop uploader delete_after rest success_count (S fail_count)
  end.

(** The Python function returns nothing; the model returns the two counters
    of its final log line, and [None] when it leaves at line 96. *)
Definition upload_directory (uploader : R2Uploader) (dir_path : str)
    (delete_after : bool) (format_filter : option str)
  : M (option (nat * nat)) := λ w,
  if negb (os_path_isdir w dir_path) then (Return None, w)
  else
    let video_files :=
      find_video_files (video_extensions format_filter) (os_walk w dir_path) in
    (counts ← upload_loop uploader delete_after video_files 0 0;
     mret (Some counts)) w.

End Uploads.

(** ** Requests and results, named for the statements below *)

(** The request [upload_file] hands to the storage client. *)
Definition upload_request (self : R2Uploader) (file_path : str)
    (object_name : option str) (metadata : option (gmap string str))
    (content_type : option str) : put_request :=
  let content_type := default (_get_content_type file_path) content_type in
  {| put_file := file_path;
     put_bucket := bucket_name self;
     put_key := default (OsPath.basename file_path) object_name;
     put_extra :=
       {| ContentType :=
            if bool_decide (content_type = []) then None else Some content_type;
          Metadata :=
            match metadata with
            | Some m => if bool_decide (m = ∅) then None else Some m
            | None => None
            end |} |}.

(** The dictionary of lines 138-149. *)
Definition success_result (self : R2Uploader) (key : str) (size : Z) : result :=
  let result : result :=
    {[ "success" := VBool true;
       "object_name" := VStr key;
       "size" := VInt size;
       "bucket" := VStr (bucket_name self) ]} in
  match public_url self with
  | Some url =>
      if bool_decide (url = []) then result
      else <["url" := VStr (Py.rstrip url ["/"%char] ++ "/"%char :: key)]> result
  | None => result
  end.

(** The dictionaries of the two handlers, lines 151-166. *)
Definition failure_result (key : str) (e : exn) : result :=
  {[ "success" := VBool false;
     "error" :=
       VStr match e with
            | ClientError error text =>
                default (lit "Unknown") (error ≫= Code) ++ lit ": " ++
                default text (error ≫= Message)
            | _ => exn_text e
            end;
     "object_name" := VStr key ]}.

(** The request [upload_video_to_r2] ends up making. *)
Definition video_request (clock : world → str) (uploader : R2Uploader)
    (file_path : str) (platform anchor_name : str) (w : world) : put_request :=
  upload_request uploader file_path (Some (object_name_of file_path))
    (Some {[ "platform" := platform;
             "anchor" := anchor_name;
             "upload_timestamp" := clock w ]})
    None.

(** A path component as [pathlib] keeps it: not empty, not a lone dot, no
    separator inside. *)
Definition clean (x : str) : Prop := x ≠ [] ∧ x ≠ ["."%char] ∧ ("/"%char ∉ x).

(** ** The bucket operations of [R2Uploader], lines 190-256 *)

Section Bucket.

(** What [delete_object] and [head_object] do with a bucket and a key
    ([None]: the call returns), and what [list_objects_v2] answers for a
    bucket, a prefix and a key limit: the keys under ['Contents'], or [None]
    when the response has no ['Contents']. *)
Variable s3_delete_object : world → str → str → option exn.
Variable s3_head_object : world → str → str → option exn.
Variable s3_list_objects_v2 : world → str → str → Z → exn + option (list str).

(** A client call that returns nothing. *)
Definition client_call (answer : world → option exn) : M () := λ w,
  match answer w with
  | None => (Return (), w)
  | Some e => (Raise e, w)
  end.

(** [delete_file], lines 190-209: only [ClientError] is handled. *)
Definition delete_file (self : R2Uploader) (object_name : str) : M bool :=
  try_except
    (client_call (λ w, s3_delete_object w (bucket_name self) object_name);;
     mret true)
    (λ e,
       match e with
       | ClientError _ _ => mret false
       | _ => raise e
       end).

(** [list_files], lines 211-234. *)
Definition list_files (self : R2Uploader) (prefix : str) (max_keys : Z)
  : M (list str) :=
  try_except
    (λ w,
       match s3_list_objects_v2 w (bucket_name self) prefix max_keys with
       | inl e => (Raise e, w)
       | inr (Some keys) => (Return keys, w)
       | inr None => (Return [], w)
       end)
    (λ e,
       match e with
       | ClientError _ _ => mret []
       | _ => raise e
       end).

(** [e.response['Error']['Code']]: a missing entry is a [KeyError]. *)
Definition response_error_code (error : option error_entry) : exn + str :=
  match error with
  | None => inl (OtherException (lit "'Error'"))
  | Some entry =>
      match Code entry with
      | None => inl (OtherException (lit "'Code'"))
      | Some code => inr code
      end
  end.

(** [file_exists], lines 236-256. *)
Definition file_exists (self : R2Uploader) (object_name : str) : M bool :=
  try_except
    (client_call (λ w, s3_head_object w (bucket_name self) object_name);;
     mret true)
    (λ e,
       match e with
       | ClientError error _ =>
           match response_error_code error with
           | inl key_error => raise key_error
           | inr code =>
               if bool_decide (code = lit "404") then mret false
               else mret false
           end
       | _ => raise e
       end).

End Bucket.

(** ** Construction from the configuration, lines 32-77 and 287-334 *)

(** [d.get(k, dflt)] on a dictionary of strings. *)
Definition dict_get (d : gmap string str) (k : string) (dflt : str) : str :=
  default dflt (d !! k).

(** The values that switch an option on. *)
Definition yes_tokens : list str := [lit "是"; lit "yes"; lit "true"; lit "1"].

(** [s or None]. *)
Definition or_None (s : str) : option str :=
  if bool_decide (s = []) then None else Some s.

Section Construction.

(** Whether [import boto3] went through, and what [boto3.client] does with
    an endpoint, a key id and a secret ([None]: it returns a client). *)
Variable BOTO3_AVAILABLE : bool.
Variable boto3_client : str → str → str → option exn.

(** [R2Uploader(...)]: [__init__] with its two ways of raising. *)
Definition R2Uploader_new (account access_key_id secret_access_key bucket : str)
    (endpoint public : option str) : exn + R2Uploader :=
  if negb BOTO3_AVAILABLE
  then inl (OtherException
              (lit "boto3 is required for R2 upload. Install with: pip install boto3"))
  else
    let self := R2Uploader_init account bucket endpoint public in
    match boto3_client (endpoint_url self) access_key_id secret_access_key with
    | Some e => inl e
    | None => inr self
    end.

(** [create_r2_uploader_from_config], lines 287-334. *)
Definition create_r2_uploader_from_config (config : gmap string str)
  : option R2Uploader :=
  if negb BOTO3_AVAILABLE then None
  else
    let enabled :=
      bool_decide
        (Py.strip (dict_get config "r2_upload_enabled" (lit "否")) ∈ yes_tokens)
    in
    if negb enabled then None
    else
      let account := Py.strip (dict_get config "r2_account_id" []) in
      let access_key_id := Py.strip (dict_get config "r2_access_key_id" []) in
      let secret_access_key :=
        Py.strip (dict_get config "r2_secret_access_key" []) in
      let bucket := Py.strip (dict_get config "r2_bucket_name" []) in
      if negb (forallb (λ s : str, negb (bool_decide (s = [])))
                 [account; access_key_id; secret_access_key; bucket])
      then None
      else
        let endpoint := or_None (Py.strip (dict_get config "r2_endpoint_url" [])) in
        let public := or_None (Py.strip (dict_get config "r2_public_url" [])) in
        match R2Uploader_new account access_key_id secret_access_key bucket
                endpoint public with
        | inr uploader => Some uploader
        | inl _ => None
        end.

End Construction.

(** ** [main] of the example script, lines 142-207 *)

(** The namespace [parser.parse_args()] returns. *)
Record cli_args := {
  arg_path : option str;
  arg_config : bool;
  arg_dir : bool;
  arg_delete : bool;
  arg_platform : str;
  arg_anchor : str;
  arg_account_id : option str;
  arg_access_key : option str;
  arg_secret_key : option str;
  arg_bucket : option str;
  arg_public_url : option str
}.

(** How [main] ends: it returns, or it calls [sys.exit(code)]. *)
Inductive ending :=
  | Finished
  | SysExit (code : Z).

(** Truth value of an optional string argument. *)
Definition given (a : option str) : bool :=
  match a with
  | Some (_ :: _) => true
  | _ => false
  end.

Section Main.

Variable s3_upload : world → put_request → option exn.
Variable remove_error : world → str → option exn.
Variable clock : world → str.
Variable os_path_isdir : world → str → bool.
Variable os_walk : world → str → list (str * list str * list str).
Variable BOTO3_AVAILABLE : bool.
Variable boto3_client : str → str → str → option exn.

(** What [read_config()] returns: [None] without a configuration file, else
    the dictionary, which is empty when the file has no R2 section. *)
Variable read_config : option (gmap string str).

(** Lines 201-207. *)
Definition main_upload (args : cli_args) (path : str) (uploader : R2Uploader)
    (delete_after : bool) : M ending :=
  if arg_dir args then
    upload_directory s3_upload remove_error clock os_path_isdir os_walk
      uploader path delete_after None;;
    mret Finished
  else
    upload_single_file s3_upload remove_error clock uploader path
      (arg_platform args) (arg_anchor args) delete_after;;
    mret Finished.

Definition main (args : cli_args) : M ending :=
  if negb (given (arg_path args)) then mret (SysExit 1)
  else
    let path := default [] (arg_path args) in
    if arg_config args then
      match read_config with
      | Some config =>
          if bool_decide (config = ∅) then mret (SysExit 1)
          else
            let uploader :=
              create_r2_uploader_from_config BOTO3_AVAILABLE boto3_client
                config in
            let delete_after :=
              bool_decide
                (dict_get config "delete_after_upload" (lit "否") ∈ yes_tokens)
              || arg_delete args in
            match uploader with
            | Some uploader => main_upload args path uploader delete_after
            | None => mret (SysExit 1)
            end
      | None => mret (SysExit 1)
      end
    else if negb (given (arg_account_id args) && given (arg_access_key args) &&
                  given (arg_secret_key args) && given (arg_bucket args))
    then mret (SysExit 1)
    else
      match R2Uploader_new BOTO3_AVAILABLE boto3_client
              (default [] (arg_account_id args))
              (default [] (arg_access_key args))
              (default [] (arg_secret_key args))
              (default [] (arg_bucket args))
              None (arg_public_url args) with
      | inl e => raise e
      | inr uploader => main_upload args path uploader (arg_delete args)
      end.

End Main.

(** ** A sample directory, used by the examples below *)

Definition sample_uploader : R2Uploader :=
  R2Uploader_init (lit "acct") (lit "videos") None
    (Some (lit "https://cdn.example.com/")).

Definition sample_world : world :=
  {| files :=
       list_to_map
         [ (lit "downloads/douyin/annie/a.mp4", 10%Z);
           (lit "downloads/douyin/annie/b.mkv", 20%Z);
           (lit "downloads/douyin/annie/c.txt", 30%Z);
           (lit "downloads/douyin/annie/d.flv", 40%Z) ];
     puts := [];
     removes := [] |}.

Definition sample_isdir (w : world) (p : str) : bool :=
  bool_decide (p = lit "downloads").

Definition sample_walk (w : world) (p : str) : list (str * list str * list str) :=
  [ (lit "downloads", [lit "douyin"], []);
    (lit "downloads/douyin", [lit "annie"], []);
    (lit "downloads/douyin/annie", [],
     [lit "a.mp4"; lit "b.mkv"; lit "c.txt"; lit "d.flv"]) ].

(** A storage client that times out on [b.mkv] and takes everything else. *)
Definition sample_s3 (w : world) (req : put_request) : option exn :=
  if bool_decide (put_file req = lit "downloads/douyin/annie/b.mkv")
  then Some (OtherException (lit "timed out"))
  else None.

Definition sample_remove (w : world) (p : str) : option exn := None.

Definition sample_clock (w : world) : str := lit "1729500000".

(** A storage client that takes everything, and one that is unreachable. *)
Definition accepting_s3 (w : world) (req : put_request) : option exn := None.

Definition unreachable_s3 (w : world) (req : put_request) : option exn :=
  Some (OtherException (lit "Could not connect to the endpoint URL")).

(** A configuration as [read_config] builds it, and a command line. *)
Definition sample_config : gmap string str :=
  list_to_map
    [ ("r2_upload_enabled", lit "yes");
      ("r2_account_id", lit " acct ");
      ("r2_access_key_id", lit "key");
      ("r2_secret_access_key", lit "secret");
      ("r2_bucket_name", lit "videos");
      ("r2_endpoint_url", lit "");
      ("r2_public_url", lit "https://cdn.example.com/ ");
      ("delete_after_upload", lit "no");
      ("upload_format_filter", lit "mp3") ].

Definition sample_boto3_client (endpoint access secret : str) : option exn :=
  None.

Definition sample_args : cli_args :=
  {| arg_path := Some (lit "downloads");
     arg_config := true;
     arg_dir := true;
     arg_delete := false;
     arg_platform := lit "unknown";
     arg_anchor := lit "unknown";
     arg_account_id := None;
     arg_access_key := None;
     arg_secret_key := None;
     arg_bucket := None;
     arg_public_url := None |}.

(** * Facts about the string primitives *)

Section StringFacts.

Implicit Types (s t sub sep pre chars : str) (c : ascii).

Lemma startswith_nil s : Py.startswith s [] = true.
Proof. by destruct s. Qed.

Lemma startswith_cons_cons a b s pre :
  Py.startswith (b :: s) (a :: pre) = true ↔ a = b ∧ Py.startswith s pre = true.
Proof. simpl. case_decide; split; (congruence || by intros []). Qed.

Lemma startswith_spec s pre :
  Py.startswith s pre = true ↔ ∃ t, s = pre ++ t.
Proof.
  revert s. induction pre as [|a pre IH]; intros s.
  - rewrite startswith_nil. naive_solver.
  - destruct s as [|b s].
    + split; [done | by intros [t ?]].
    + rewrite startswith_cons_cons, IH. split.
      * intros [-> [t ->]]. by exists t.
      * intros [t [= -> ->]]. eauto.
Qed.

Lemma startswith_take n s pre :
  Py.startswith (take n s) pre = true → Py.startswith s pre = true.
Proof.
  rewrite !startswith_spec. intros [t Ht]. exists (t ++ drop n s).
  by rewrite (assoc_L (++)), <- Ht, take_drop.
Qed.

Lemma find_nil sub : sub ≠ [] → Py.find [] sub = None.
Proof. by destruct sub. Qed.

Lemma find_cons c s sub :
  Py.find (c :: s) sub =
    if Py.startswith (c :: s) sub then Some 0 else S <$> Py.find s sub.
Proof. done. Qed.

(** The index found is an occurrence, and the first one. *)
Lemma find_Some s sub i :
  Py.find s sub = Some i →
  Py.startswith (drop i s) sub = true ∧ (i + length sub ≤ length s)%nat.
Proof.
  revert i. induction s as [|c s IH]; intros i.
  - simpl. destruct sub; [|done]. intros [= <-]. simpl. split; [done | lia].
  - rewrite find_cons. destruct (Py.startswith (c :: s) sub) eqn:E.
    + intros [= <-]. split; [done|].
      apply startswith_spec in E as [t Ht].
      apply (f_equal length) in Ht. rewrite length_app in Ht. simpl in *. lia.
    + destruct (Py.find s sub) as [j|]; [|done]. intros [= <-].
      destruct (IH j eq_refl). simpl. split; [done | lia].
Qed.

Lemma find_None_cons c s sub :
  Py.find (c :: s) sub = None → Py.find s sub = None.
Proof.
  rewrite find_cons. destruct (Py.startswith _ _); [done|].
  by destruct (Py.find s sub).
Qed.

Lemma find_None_drop n s sub :
  Py.find s sub = None → Py.find (drop n s) sub = None.
Proof.
  revert s. induction n as [|n IH]; intros [|c s] H; simpl; try done.
  apply IH. by eapply find_None_cons.
Qed.

(** The text before the first occurrence holds no occurrence. *)
Lemma find_take s sub i :
  sub ≠ [] → Py.find s sub = Some i → Py.find (take i s) sub = None.
Proof.
  intros Hsub. revert i. induction s as [|c s IH]; intros i.
  - rewrite take_nil. by rewrite find_nil.
  - rewrite find_cons. destruct (Py.startswith (c :: s) sub) eqn:E.
    + intros [= <-]. by apply find_nil.
    + destruct (Py.find s sub) as [j|] eqn:Ej; [|done]. intros [= <-].
      rewrite firstn_cons, find_cons.
      destruct (Py.startswith (c :: take j s) sub) eqn:E'.
      * apply (startswith_take (S j) (c :: s)) in E'. congruence.
      * by rewrite (IH j).
Qed.

Lemma find_lstrip s sub chars :
  Py.find s sub = None → Py.find (Py.lstrip s chars) sub = None.
Proof.
  induction s as [|c s IH]; [by destruct sub|]. intros H. simpl.
  case_bool_decide; [|done]. apply IH. by eapply find_None_cons.
Qed.

Lemma startswith_replace s sub old new :
  new ∉ sub →
  Py.startswith (Py.replace s old new) sub = true → Py.startswith s sub = true.
Proof.
  revert s. induction sub as [|a sub IH]; intros s Hnew; [by rewrite !startswith_nil|].
  destruct s as [|b s]; [done|]. unfold Py.replace. rewrite fmap_cons.
  rewrite !startswith_cons_cons. intros [Ha Hs].
  apply not_elem_of_cons in Hnew as [Hne Hnew]. split.
  - case_decide; congruence.
  - by apply IH.
Qed.

Lemma find_replace s sub old new :
  new ∉ sub →
  Py.find s sub = None → Py.find (Py.replace s old new) sub = None.
Proof.
  intros Hnew. induction s as [|c s IH]; [done|].
  intros H. pose proof (find_None_cons _ _ _ H) as Hs.
  assert (Py.startswith (c :: s) sub = false) as E.
  { rewrite find_cons in H. by destruct (Py.startswith (c :: s) sub). }
  change (Py.replace (c :: s) old new)
    with ((if decide (c = old) then new else c) :: Py.replace s old new).
  rewrite find_cons, (IH Hs).
  destruct (Py.startswith (_ :: Py.replace _ _ _) sub) eqn:E'; [|done].
  apply (startswith_replace (c :: s)) in E'; [congruence | done].
Qed.

Lemma replace_no_old s old new : old ≠ new → old ∉ Py.replace s old new.
Proof.
  intros Hne. unfold Py.replace. rewrite list_elem_of_fmap.
  intros (c & Hc & _). case_decide; congruence.
Qed.

Lemma lstrip_head s chars c t :
  Py.lstrip s chars = c :: t → c ∉ chars.
Proof.
  induction s as [|a s IH]; [done|]. simpl.
  case_bool_decide; [done|]. by intros [= -> ->].
Qed.

(** ** [split]: enough rounds, and its unfolding *)

Lemma split_loop_enough n s sep :
  sep ≠ [] → (length s ≤ n)%nat →
  Py.split_loop n s sep = Py.split_loop (length s) s sep.
Proof.
  intros Hsep. revert s.
  induction (lt_wf n) as [n _ IH]. intros s Hn.
  destruct (Py.find s sep) as [i|] eqn:Ei.
  - destruct (find_Some _ _ _ Ei) as [_ Hi].
    assert (0 < length sep)%nat by (destruct sep; [done | simpl; lia]).
    destruct n as [|n]; [lia|].
    destruct (length s) as [|m] eqn:Em; [lia|].
    simpl. rewrite Ei. f_equal.
    assert (length (drop (i + length sep) s) ≤ m)%nat
      by (rewrite length_drop; lia).
    rewrite (IH n) by lia. rewrite (IH m) by lia. done.
  - destruct n, (length s); simpl; by rewrite Ei.
Qed.

Lemma split_unfold s sep :
  sep ≠ [] →
  Py.split s sep =
    match Py.find s sep with
    | Some i => take i s :: Py.split (drop (i + length sep) s) sep
    | None => [s]
    end.
Proof.
  intros Hsep. unfold Py.split.
  destruct (Py.find s sep) as [i|] eqn:Ei.
  - destruct (find_Some _ _ _ Ei) as [_ Hi].
    assert (0 < length sep)%nat by (destruct sep; [done | simpl; lia]).
    destruct (length s) as [|m] eqn:Em; [lia|].
    simpl. rewrite Ei. f_equal. apply split_loop_enough; [done|].
    rewrite length_drop. lia.
  - destruct (length s); simpl; by rewrite Ei.
Qed.

End StringFacts.

(** * The object key *)

Lemma downloads_nonempty : downloads ≠ [].
Proof. done. Qed.

(** The key derivation in terms of [find]: [parts[1]] is the text between
    the first occurrence of the marker and the second one, if there is a
    second one. *)
Lemma relative_path_unfold file_path :
  relative_path file_path =
    match Py.find file_path downloads with
    | None => file_path
    | Some i =>
        let rest := drop (i + length downloads) file_path in
        Py.lstrip
          match Py.find rest downloads with
          | Some j => take j rest
          | None => rest
          end
          ["/"%char; "\"%char]
    end.
Proof.
  unfold relative_path, Py.contains.
  rewrite (split_unfold file_path downloads downloads_nonempty).
  destruct (Py.find file_path downloads) as [i|]; [|done].
  rewrite (split_unfold (drop _ _) downloads downloads_nonempty).
  by destruct (Py.find (drop _ _) downloads).
Qed.

(** When the marker occurs once, the key is the one the specification
    describes. *)
Lemma object_name_single_marker file_path :
  Py.contains file_path downloads = true →
  Py.contains (suffix_after_marker file_path) downloads = false →
  object_name_of file_path = spec_object_key file_path.
Proof.
  unfold object_name_of, spec_object_key, suffix_after_marker, Py.contains.
  rewrite relative_path_unfold.
  destruct (Py.find file_path downloads) as [i|]; [|done]. intros _. simpl.
  by destruct (Py.find (drop _ _) downloads).
Qed.

Example object_name_example :
  object_name_of (lit "downloads/douyin/annie/2024-01-01.mp4")
  = lit "douyin/annie/2024-01-01.mp4".
Proof. reflexivity. Qed.

Example object_name_windows :
  object_name_of (lit "C:\rec\downloads\douyin\annie\a.mp4")
  = lit "douyin/annie/a.mp4".
Proof. reflexivity. Qed.

(** C1, at a path that holds the marker twice (a checkout of the recorder
    under a [downloads] folder): the derived key stops at the second marker
    and loses the file name, where the text after the marker is
    [DouyinLiveRecorder/downloads/douyin/anchor/video.mp4]. *)
Theorem C1_key_cut_at_second_marker :
  let file_path :=
    lit "/home/u/downloads/DouyinLiveRecorder/downloads/douyin/anchor/video.mp4" in
  Py.contains file_path downloads = true ∧
  object_name_of file_path = lit "DouyinLiveRecorder/" ∧
  spec_object_key file_path
    = lit "DouyinLiveRecorder/downloads/douyin/anchor/video.mp4" ∧
  object_name_of file_path ≠ spec_object_key file_path.
Proof. by vm_compute. Qed.

Lemma relative_path_no_marker file_path :
  Py.find (relative_path file_path) downloads = None.
Proof.
  rewrite relative_path_unfold.
  destruct (Py.find file_path downloads) as [i|] eqn:Ei; [|done]. simpl.
  apply find_lstrip.
  destruct (Py.find (drop _ _) downloads) as [j|] eqn:Ej; [|done].
  by apply find_take.
Qed.

(** C2 as amended: for every path the derived key has no backslash and no
    occurrence of the marker; it is relative when the path holds the marker,
    and it is the whole path, backslashes turned into slashes, when the path
    does not. *)
Theorem C2_object_key_shape (file_path : str) :
  let key := object_name_of file_path in
  ("\"%char ∉ key) ∧
  Py.contains key downloads = false ∧
  (Py.contains file_path downloads = true → is_relative key) ∧
  (Py.contains file_path downloads = false →
   key = Py.replace file_path "\" "/").
Proof.
  simpl. unfold object_name_of. split_and!.
  - by apply replace_no_old.
  - unfold Py.contains. rewrite find_replace; [done | | apply relative_path_no_marker].
    apply (bool_decide_unpack _). by vm_compute.
  - unfold Py.contains, is_relative. rewrite relative_path_unfold.
    destruct (Py.find file_path downloads) as [i|]; [|done]. intros _. simpl.
    destruct (Py.lstrip _ _) as [|c t] eqn:E; [done|].
    apply lstrip_head in E. unfold Py.replace. rewrite fmap_cons. simpl.
    rewrite !not_elem_of_cons in E. destruct E as (? & ? & _).
    repeat case_decide; congruence.
  - unfold Py.contains, relative_path, Py.contains.
    by destruct (Py.find file_path downloads).
Qed.

(** C2 as stated fails: a path without the marker keeps its root. *)
Lemma C2_absolute_path_key_not_relative :
  ¬ (∀ file_path : str,
       let key := object_name_of file_path in
       ("\"%char ∉ key) ∧ is_relative key ∧
       Py.contains key downloads = false).
Proof.
  intros H. destruct (H (lit "/tmp/video.mp4")) as (_ & Hrel & _).
  by vm_compute in Hrel.
Qed.

(** * [upload_file] *)



Section UploadFile.

Variable s3_upload : world → put_request → option exn.

(** [upload_file] run on a world: it always returns, and it talks to the
    storage client exactly when the file exists. *)
Lemma upload_file_run self file_path object_name metadata content_type w :
  upload_file s3_upload self file_path object_name metadata content_type w =
    match files w !! file_path with
    | None => (Return file_not_found, w)
    | Some size =>
        let req :=
          upload_request self file_path object_name metadata content_type in
        (Return match s3_upload w req with
                | None => success_result self (put_key req) size
                | Some e => failure_result (put_key req) e
                end,
         log_put req w)
    end.
Proof.
  unfold upload_file, upload_request, mbind, M_bind, os_path_exists,
    os_path_getsize, try_except, s3_client_upload_file, mret, M_ret.
  destruct (files w !! file_path) as [n|] eqn:Ef; simpl.
  - rewrite Ef. unfold success_result, failure_result. simpl.
    by destruct (s3_upload w _) as [[]|].
  - done.
Qed.

Lemma failure_result_success key e :
  failure_result key e !! "success" = Some (VBool false).
Proof. done. Qed.

Lemma failure_result_object_name key e :
  failure_result key e !! "object_name" = Some (VStr key).
Proof. done. Qed.

Lemma success_result_success self key size :
  success_result self key size !! "success" = Some (VBool true).
Proof.
  unfold success_result. destruct (public_url self); [|done].
  by case_bool_decide.
Qed.

(** C3: [upload_file] returns a dictionary on every call.  For a missing
    file the dictionary reports failure.  When the storage client raises a
    [ClientError], it reports failure with the error's code and message
    (["Unknown"] and the exception text where the response lacks them) as
    [code: message]; when the client raises anything else, it reports failure
    with the exception text. *)
Theorem C3_upload_file_never_raises
    self file_path object_name metadata content_type w :
  ∃ r w',
    upload_file s3_upload self file_path object_name metadata content_type w
    = (Return r, w') ∧
    (files w !! file_path = None → r !! "success" = Some (VBool false)) ∧
    (∀ e,
       is_Some (files w !! file_path) →
       s3_upload w (upload_request self file_path object_name metadata
                      content_type) = Some e →
       r !! "success" = Some (VBool false) ∧
       r !! "error" =
         Some (VStr match e with
                    | ClientError (Some {| Code := Some c; Message := Some m |}) _ =>
                        c ++ lit ": " ++ m
                    | ClientError (Some {| Code := None; Message := Some m |}) _ =>
                        lit "Unknown: " ++ m
                    | ClientError (Some {| Code := Some c; Message := None |}) text =>
                        c ++ lit ": " ++ text
                    | ClientError _ text => lit "Unknown: " ++ text
                    | OSError text | OtherException text => text
                    end)).
Proof.
  rewrite upload_file_run.
  destruct (files w !! file_path) as [size|]; eexists _, _; (split; [done|]).
  - split; [done|]. intros e _ ->. split; [done|].
    by destruct e as [[[[c|] [m|]]|] text | text | text].
  - split; [done|]. by intros e [? ?].
Qed.

(** C9: for a missing file the result is exactly
    [{success: False, error: "File not found"}], hence without object name,
    size or url, and the world is left as it was; every other result that
    reports failure carries the object name. *)
Theorem C9_missing_file_result
    self file_path object_name metadata content_type w :
  ∃ r w',
    upload_file s3_upload self file_path object_name metadata content_type w
    = (Return r, w') ∧
    (files w !! file_path = None →
       r = {[ "success" := VBool false;
              "error" := VStr (lit "File not found") ]} ∧
       r !! "object_name" = None ∧ r !! "size" = None ∧ r !! "url" = None ∧
       w' = w) ∧
    (is_Some (files w !! file_path) →
       truthy (r !! "success") = false →
       r !! "object_name" =
         Some (VStr (default (OsPath.basename file_path) object_name))).
Proof.
  rewrite upload_file_run.
  destruct (files w !! file_path) as [size|]; eexists _, _; (split; [done|]).
  - split; [done|]. intros _. simpl.
    destruct (s3_upload w _); [done|].
    by rewrite success_result_success.
  - split; [done|]. by intros [? ?].
Qed.


End UploadFile.

(** * [upload_video_to_r2] *)

Section UploadVideo.

Variable s3_upload : world → put_request → option exn.
Variable remove_error : world → str → option exn.
Variable clock : world → str.

Lemma video_request_key uploader file_path platform anchor_name w :
  put_key (video_request clock uploader file_path platform anchor_name w)
  = object_name_of file_path.
Proof. done. Qed.

Lemma video_request_file uploader file_path platform anchor_name w :
  put_file (video_request clock uploader file_path platform anchor_name w)
  = file_path.
Proof. done. Qed.

(** [upload_video_to_r2] run on a world. *)
Lemma upload_video_to_r2_run
    uploader file_path platform anchor_name delete_after_upload w :
  upload_video_to_r2 s3_upload remove_error clock uploader file_path platform
    anchor_name delete_after_upload w =
    match files w !! file_path with
    | None => (Return file_not_found, w)
    | Some size =>
        let req := video_request clock uploader file_path platform anchor_name w in
        let w1 := log_put req w in
        match s3_upload w req with
        | Some e => (Return (failure_result (object_name_of file_path) e), w1)
        | None =>
            let r := success_result uploader (object_name_of file_path) size in
            if delete_after_upload then
              match remove_error w1 file_path with
              | Some _ =>
                  (Return (<["local_file_deleted" := VBool false]> r),
                   log_remove file_path w1)
              | None =>
                  (Return (<["local_file_deleted" := VBool true]> r),
                   set_files (delete file_path (files w))
                     (log_remove file_path w1))
              end
            else (Return r, w1)
        end
    end.
Proof.
  unfold upload_video_to_r2, upload_file_async.
  unfold mbind at 1. unfold M_bind at 1. unfold os_path_exists.
  destruct (files w !! file_path) as [size|] eqn:Ef; simpl; [|done].
  unfold mbind at 1. unfold M_bind at 1.
  unfold mbind at 1. unfold M_bind at 1.
  rewrite upload_file_run, Ef. fold (video_request clock uploader file_path platform anchor_name w).
  simpl.
  destruct (s3_upload w _) as [e|]; simpl.
  - by rewrite failure_result_success.
  - rewrite success_result_success. simpl.
    destruct delete_after_upload; simpl; [|done].
    unfold try_except, mbind, M_bind, os_remove. simpl. rewrite Ef.
    by destruct (remove_error _ _).
Qed.

Lemma success_result_no_deleted_flag self key size :
  success_result self key size !! "local_file_deleted" = None.
Proof.
  unfold success_result. destruct (public_url self); [|done].
  by case_bool_decide.
Qed.

(** The key sent to the storage client is the derived object key. *)
Lemma upload_video_to_r2_key
    uploader file_path platform anchor_name delete_after_upload w :
  is_Some (files w !! file_path) →
  ∃ r w' req,
    upload_video_to_r2 s3_upload remove_error clock uploader file_path
      platform anchor_name delete_after_upload w = (Return r, w') ∧
    puts w' = puts w ++ [req] ∧
    put_file req = file_path ∧
    put_key req = object_name_of file_path.
Proof.
  intros [size Ef]. rewrite upload_video_to_r2_run, Ef. simpl.
  destruct (s3_upload w _); [by eexists _, _, _|].
  destruct delete_after_upload; [|by eexists _, _, _].
  destruct (remove_error _ _); by eexists _, _, _.
Qed.

(** C5: with [delete_after_upload] set, the result reports success exactly
    when the file is there and the storage client took it.  It then means
    [os.remove] was called once on the file, and [local_file_deleted] tells
    whether it went through: [True] with the file gone, [False] with the
    files as they were, and [success] stays [True] either way.  A result that
    reports failure means [os.remove] was not called and no file changed. *)
Theorem C5_delete_after_upload uploader file_path platform anchor_name w :
  ∃ r w',
    upload_video_to_r2 s3_upload remove_error clock uploader file_path
      platform anchor_name true w = (Return r, w') ∧
    (truthy (r !! "success") = true ↔
       is_Some (files w !! file_path) ∧
       s3_upload w (video_request clock uploader file_path platform
                      anchor_name w) = None) ∧
    (truthy (r !! "success") = true →
       r !! "success" = Some (VBool true) ∧
       removes w' = removes w ++ [file_path] ∧
       match
         remove_error
           {| files := files w; puts := puts w'; removes := removes w |}
           file_path
       with
       | None =>
           r !! "local_file_deleted" = Some (VBool true) ∧
           files w' = delete file_path (files w)
       | Some _ =>
           r !! "local_file_deleted" = Some (VBool false) ∧
           files w' = files w
       end) ∧
    (truthy (r !! "success") = false →
       removes w' = removes w ∧ files w' = files w ∧
       r !! "local_file_deleted" = None).
Proof.
  rewrite upload_video_to_r2_run.
  destruct (files w !! file_path) as [size|]; simpl.
  2:{ eexists _, _. split; [done|]. split; [|done].
      split; [done | by intros [[? ?] _]]. }
  destruct (s3_upload w _) as [e|].
  { eexists _, _. split; [done|]. split; [|done].
    split; [done | by intros [_ ?]]. }
  unfold log_put at 1. simpl.
  destruct (remove_error _ _) eqn:Er; eexists _, _; (split; [done|]);
    simpl; unfold log_put; rewrite Er;
    rewrite !lookup_insert_ne, !success_result_success by done;
    rewrite lookup_insert_eq; (split; [by split; [eauto|]|]); done.
Qed.

(** C10: without [delete_after_upload] no file is removed, [os.remove] is
    not called, and the result has no [local_file_deleted] field, whatever
    the upload did. *)
Theorem C10_no_delete_without_flag uploader file_path platform anchor_name w :
  ∃ r w',
    upload_video_to_r2 s3_upload remove_error clock uploader file_path
      platform anchor_name false w = (Return r, w') ∧
    files w' = files w ∧
    removes w' = removes w ∧
    r !! "local_file_deleted" = None.
Proof.
  rewrite upload_video_to_r2_run.
  destruct (files w !! file_path) as [size|]; [|by eexists _, _].
  simpl. destruct (s3_upload w _) as [e|]; eexists _, _; (split; [done|]);
    [done|].
  by rewrite success_result_no_deleted_flag.
Qed.

End UploadVideo.

(** * [upload_directory] *)

Section UploadDirectory.

Variable s3_upload : world → put_request → option exn.
Variable remove_error : world → str → option exn.
Variable clock : world → str.
Variable os_path_isdir : world → str → bool.
Variable os_walk : world → str → list (str * list str * list str).

(** One round of the loop: [upload_single_file] returns, changes no other
    path, and calls the storage client once when the file is there. *)
Lemma upload_single_file_step uploader file_path platform anchor delete_after w :
  ∃ b w',
    upload_single_file s3_upload remove_error clock uploader file_path
      platform anchor delete_after w = (Return b, w') ∧
    (∀ q, q ≠ file_path → files w' !! q = files w !! q) ∧
    put_file <$> puts w' =
      (put_file <$> puts w) ++
      match files w !! file_path with Some _ => [file_path] | None => [] end.
Proof.
  unfold upload_single_file.
  unfold mbind at 1. unfold M_bind at 1. unfold os_path_exists.
  destruct (files w !! file_path) as [size|] eqn:Ef; simpl.
  - unfold mbind, M_bind. rewrite upload_video_to_r2_run, Ef. simpl.
    destruct (s3_upload w _).
    { eexists _, _. split; [done|]. simpl. by rewrite fmap_app. }
    destruct delete_after.
    2:{ eexists _, _. split; [done|]. simpl. by rewrite fmap_app. }
    destruct (remove_error _ _);
      eexists _, _; (split; [done|]); simpl; rewrite fmap_app;
      (split; [|done]); [done|].
    intros q Hq. by rewrite lookup_delete_ne.
  - eexists _, _. split; [done|]. by rewrite app_nil_r.
Qed.

Lemma upload_loop_run uploader delete_after video_files :
  ∀ success_count fail_count w,
  ∃ s f w',
    upload_loop s3_upload remove_error clock uploader delete_after
      video_files success_count fail_count w = (Return (s, f), w') ∧
    (s + f = success_count + fail_count + length video_files)%nat ∧
    (NoDup video_files →
     (∀ q, q ∈ video_files → is_Some (files w !! q)) →
     put_file <$> puts w' = (put_file <$> puts w) ++ video_files).
Proof.
  induction video_files as [|file_path rest IH]; intros sc fc w.
  - eexists _, _, _. split; [done|]. simpl. split; [lia|].
    intros _ _. by rewrite app_nil_r.
  - simpl. unfold mbind, M_bind.
    destruct (upload_single_file_step uploader file_path
                (infer_labels file_path).1 (infer_labels file_path).2
                delete_after w) as (b & w1 & -> & Hfiles & Hputs).
    destruct (IH (if b then S sc else sc) (if b then fc else S fc) w1)
      as (s & f & w' & Hrun & Hsum & Hlog).
    exists s, f, w'. split; [by destruct b|]. split; [destruct b; lia|].
    intros [Hnotin Hnodup]%NoDup_cons Hall.
    rewrite Hlog, Hputs; [| done |].
    + destruct (Hall file_path) as [size ->]; [left|].
      by rewrite <- (assoc_L (++)).
    + intros q Hq. rewrite Hfiles; [apply Hall; by right|].
      by intros ->.
Qed.

(** C4: on a directory, [upload_directory] runs to its last line, and the two
    counters add up to the number of files the extension filter kept.  When
    those files are distinct and present, the storage client is called for
    each of them, once, in order, whatever the earlier calls did. *)
Theorem C4_directory_counts uploader dir_path delete_after format_filter w :
  os_path_isdir w dir_path = true →
  let video_files :=
    find_video_files (video_extensions format_filter) (os_walk w dir_path) in
  ∃ success_count fail_count w',
    upload_directory s3_upload remove_error clock os_path_isdir os_walk
      uploader dir_path delete_after format_filter w
    = (Return (Some (success_count, fail_count)), w') ∧
    (success_count + fail_count = length video_files)%nat ∧
    (NoDup video_files →
     (∀ q, q ∈ video_files → is_Some (files w !! q)) →
     put_file <$> puts w' = (put_file <$> puts w) ++ video_files).
Proof.
  intros Hdir video_files. unfold upload_directory. rewrite Hdir. simpl.
  unfold mbind, M_bind.
  destruct (upload_loop_run uploader delete_after video_files 0 0 w)
    as (s & f & w' & Hrun & Hsum & Hlog).
  fold video_files. rewrite Hrun. by exists s, f, w'.
Qed.

End UploadDirectory.

(** * Facts about paths *)

Section PathFacts.

Implicit Types (s d n stem e : str) (a c : ascii).

Lemma find_char_cons a s c :
  Py.find (a :: s) [c] =
    if decide (c = a) then Some 0%nat else S <$> Py.find s [c].
Proof.
  rewrite find_cons.
  change (Py.startswith (a :: s) [c])
    with (if decide (c = a) then Py.startswith s [] else false).
  rewrite startswith_nil. by case_decide.
Qed.

Lemma find_char_None s c : c ∉ s → Py.find s [c] = None.
Proof.
  induction s as [|a s IH]; [done|]. intros [? ?]%not_elem_of_cons.
  rewrite find_char_cons, decide_False by done. by rewrite IH.
Qed.

(** Splitting at a character, one character at a time. *)
Lemma split_cons_char a s c :
  Py.split (a :: s) [c] =
    if decide (c = a) then [] :: Py.split s [c]
    else match Py.split s [c] with
         | h :: t => (a :: h) :: t
         | [] => [[a]]
         end.
Proof.
  rewrite (split_unfold (a :: s) [c]) by done. rewrite find_char_cons.
  case_decide; [done|].
  rewrite (split_unfold s [c]) by done.
  by destruct (Py.find s [c]).
Qed.

(** The text after the last separator is the last piece. *)
Lemma split_app_char d n c :
  c ∉ n → ∃ init, init ≠ [] ∧ Py.split (d ++ c :: n) [c] = init ++ [n].
Proof.
  intros Hn. induction d as [|a d (init & Hinit & IH)]; simpl.
  - exists [[]]. split; [done|].
    rewrite split_cons_char, decide_True by done.
    rewrite (split_unfold n [c]) by done. by rewrite find_char_None.
  - rewrite split_cons_char, IH. case_decide.
    + by exists ([] :: init).
    + destruct init as [|h t]; [done|]. by exists ((a :: h) :: t).
Qed.

Lemma split_nonempty s sep : Py.split s sep ≠ [].
Proof.
  unfold Py.split. by destruct (length s); simpl; destruct (Py.find s sep).
Qed.

(** Replacing a character is splitting at it and joining with the new one,
    which is how [str.replace] reads in general. *)
Lemma replace_split_join s old new :
  Py.replace s old new = Py.join [new] (Py.split s [old]).
Proof.
  induction s as [|a s IH]; [done|].
  change (Py.replace (a :: s) old new)
    with ((if decide (a = old) then new else a) :: Py.replace s old new).
  rewrite split_cons_char, IH.
  pose proof (split_nonempty s [old]) as Hne.
  destruct (Py.split s [old]) as [|h t]; [done|].
  repeat case_decide; subst; try done. by destruct t.
Qed.

Lemma name_in_dir d n :
  "/"%char ∉ n → n ≠ [] → n ≠ ["."%char] → OsPath.name (d ++ "/"%char :: n) = n.
Proof.
  intros Hn H1 H2. unfold OsPath.name, OsPath.tail_parts.
  destruct (split_app_char d n "/" Hn) as (init & _ & ->).
  rewrite filter_app, (filter_singleton_True _ n []) by done.
  by rewrite last_snoc.
Qed.

Lemma name_bare n :
  "/"%char ∉ n → n ≠ [] → n ≠ ["."%char] → OsPath.name n = n.
Proof.
  intros Hn H1 H2. unfold OsPath.name, OsPath.tail_parts.
  rewrite split_unfold, find_char_None by done.
  by rewrite (filter_singleton_True _ n []).
Qed.

Lemma rfind_None s c : c ∉ s → Py.rfind s c = None.
Proof.
  induction s as [|a s IH]; [done|]. intros [? ?]%not_elem_of_cons.
  simpl. rewrite IH by done. by rewrite decide_False.
Qed.

Lemma rfind_app stem e c :
  c ∉ e → Py.rfind (stem ++ c :: e) c = Some (length stem).
Proof.
  intros He. induction stem as [|a stem IH]; simpl.
  - rewrite rfind_None by done. by rewrite decide_True.
  - by rewrite IH.
Qed.

(** The suffix of [stem.e]: the name must not start with its last dot. *)
Lemma suffix_by_name p stem e :
  OsPath.name p = stem ++ "."%char :: e →
  stem ≠ [] → e ≠ [] → "."%char ∉ e → OsPath.suffix p = "."%char :: e.
Proof.
  intros Hname Hstem He Hdot. unfold OsPath.suffix. rewrite Hname.
  rewrite rfind_app by done.
  assert (((0 <? length stem) && (length stem + 1 <? length (stem ++ "."%char :: e)))%nat
          = true) as ->.
  { apply andb_true_iff. rewrite length_app. simpl.
    split; apply Nat.ltb_lt; destruct stem, e; simpl; done || lia. }
  by rewrite drop_app_length.
Qed.

(** The suffix of a file [stem.e] in a directory, and the content type that
    goes with it: only [e], lower-cased, matters. *)
Lemma suffix_in_dir d stem e :
  stem ≠ [] → e ≠ [] →
  "/"%char ∉ stem → "/"%char ∉ e → "."%char ∉ e →
  OsPath.suffix (d ++ "/"%char :: stem ++ "."%char :: e) = "."%char :: e.
Proof.
  intros Hstem He Hs1 Hs2 Hdot. apply (suffix_by_name _ stem e); try done.
  apply name_in_dir.
  - rewrite elem_of_app, elem_of_cons. intros [?|[?|?]]; done.
  - by destruct stem.
  - by destruct stem as [|? [|? ?]].
Qed.

Lemma suffix_bare stem e :
  stem ≠ [] → e ≠ [] →
  "/"%char ∉ stem → "/"%char ∉ e → "."%char ∉ e →
  OsPath.suffix (stem ++ "."%char :: e) = "."%char :: e.
Proof.
  intros Hstem He Hs1 Hs2 Hdot. apply (suffix_by_name _ stem e); try done.
  apply name_bare.
  - rewrite elem_of_app, elem_of_cons. intros [?|[?|?]]; done.
  - by destruct stem.
  - by destruct stem as [|? [|? ?]].
Qed.

Lemma content_type_in_dir d stem e :
  stem ≠ [] → e ≠ [] →
  "/"%char ∉ stem → "/"%char ∉ e → "."%char ∉ e →
  _get_content_type (d ++ "/"%char :: stem ++ "."%char :: e) =
    default (lit "application/octet-stream")
            (content_types !! ("."%char :: Py.lower e)).
Proof.
  intros. unfold _get_content_type. by rewrite suffix_in_dir.
Qed.

Example content_type_upper_case d stem :
  stem ≠ [] → "/"%char ∉ stem →
  _get_content_type (d ++ "/"%char :: stem ++ lit ".MP4") = lit "video/mp4".
Proof.
  intros. change (lit ".MP4") with ("."%char :: lit "MP4").
  rewrite content_type_in_dir; try done; apply (bool_decide_unpack _);
    by vm_compute.
Qed.

End PathFacts.

(** * Content types and the extension filter *)



(** * The sample directory, run *)

(** The examples of the specification. *)
Example sample_labels :
  infer_labels (lit "downloads/douyin/annie/2024-01-01.mp4")
  = (lit "douyin", lit "annie").
Proof. reflexivity. Qed.

Example sample_content_type :
  _get_content_type (lit "downloads/douyin/annie/2024-01-01.MP4")
  = lit "video/mp4".
Proof. reflexivity. Qed.

Example sample_default_filter :
  find_video_files (video_extensions None)
    [(lit "d", [], [lit "a.mp4"; lit "b.txt"; lit "c.mkv"])]
  = [lit "d/a.mp4"; lit "d/c.mkv"].
Proof. by vm_compute. Qed.

(** A [ClientError] of the storage service ends up in the result. *)
Example sample_client_error :
  let denied :=
    ClientError (Some {| Code := Some (lit "AccessDenied");
                         Message := Some (lit "Access Denied") |})
                (lit "An error occurred (AccessDenied)") in
  ∃ r w',
    upload_file (λ _ _, Some denied) sample_uploader
      (lit "downloads/douyin/annie/a.mp4") None None None sample_world
    = (Return r, w') ∧
    r !! "success" = Some (VBool false) ∧
    r !! "error" = Some (VStr (lit "AccessDenied: Access Denied")) ∧
    r !! "object_name" = Some (VStr (lit "a.mp4")).
Proof. simpl. eexists _, _. split; [by vm_compute|]. by vm_compute. Qed.


(** C4 on the sample directory: the upload of [b.mkv] fails, [d.flv] is
    uploaded all the same, and the counters read 2 and 1. *)
Lemma C4_directory_example :
  ∃ w',
    upload_directory sample_s3 sample_remove sample_clock sample_isdir
      sample_walk sample_uploader (lit "downloads") true None sample_world
    = (Return (Some (2, 1)%nat), w') ∧
    put_file <$> puts w' =
      [ lit "downloads/douyin/annie/a.mp4";
        lit "downloads/douyin/annie/b.mkv";
        lit "downloads/douyin/annie/d.flv" ].
Proof.
  destruct (C4_directory_counts sample_s3 sample_remove sample_clock
              sample_isdir sample_walk sample_uploader (lit "downloads") true
              None sample_world eq_refl)
    as (s & f & w' & Hrun & _ & Hlog).
  exists w'. split.
  - rewrite Hrun. vm_compute in Hrun. by injection Hrun as <- <- _.
  - apply Hlog.
    + apply (bool_decide_unpack _). by vm_compute.
    + apply Forall_forall. repeat constructor; by eexists.
Defined.


(** * More on the object key *)

Section ObjectKeyFacts.

Implicit Types (s sub chars : str) (old new : ascii).

Lemma replace_id s old new : old ∉ s → Py.replace s old new = s.
Proof.
  induction s as [|a s IH]; [done|]. intros [? ?]%not_elem_of_cons.
  unfold Py.replace in *. rewrite fmap_cons, IH by done.
  by rewrite decide_False.
Qed.

Lemma startswith_replace_eq s sub old new :
  old ∉ sub → new ∉ sub →
  Py.startswith (Py.replace s old new) sub = Py.startswith s sub.
Proof.
  revert s. induction sub as [|a sub IH]; intros s Hold Hnew;
    [by rewrite !startswith_nil|].
  apply not_elem_of_cons in Hold as [? ?], Hnew as [? ?].
  destruct s as [|b s]; [done|].
  change (Py.replace (b :: s) old new)
    with ((if decide (b = old) then new else b) :: Py.replace s old new).
  simpl. rewrite IH by done. repeat case_decide; congruence.
Qed.

Lemma find_replace_eq s sub old new :
  old ∉ sub → new ∉ sub →
  Py.find (Py.replace s old new) sub = Py.find s sub.
Proof.
  intros Hold Hnew. induction s as [|a s IH]; [done|].
  rewrite find_cons, <- (startswith_replace_eq (a :: s) sub old new) by done.
  change (Py.replace (a :: s) old new)
    with ((if decide (a = old) then new else a) :: Py.replace s old new).
  by rewrite find_cons, IH.
Qed.

Lemma lstrip_replace s chars old new :
  old ∈ chars → new ∈ chars →
  Py.lstrip (Py.replace s old new) chars = Py.replace (Py.lstrip s chars) old new.
Proof.
  intros Hold Hnew. induction s as [|a s IH]; [done|].
  change (Py.replace (a :: s) old new)
    with ((if decide (a = old) then new else a) :: Py.replace s old new).
  simpl. case_decide as Ha.
  - subst a. by rewrite !bool_decide_true.
  - case_bool_decide; [done|].
    unfold Py.replace. rewrite fmap_cons. by rewrite decide_False.
Qed.

Lemma relative_path_of_clean s :
  Py.find s downloads = None → relative_path s = s.
Proof. intros H. unfold relative_path, Py.contains. by rewrite H. Qed.

Lemma slashes_not_in_marker :
  ("\"%char ∉ downloads) ∧ ("/"%char ∉ downloads).
Proof. split; apply (bool_decide_unpack _); by vm_compute. Qed.

(** Deriving a key from a derived key changes nothing. *)
Theorem object_name_idempotent (file_path : str) :
  object_name_of (object_name_of file_path) = object_name_of file_path.
Proof.
  destruct slashes_not_in_marker as [_ Hslash].
  unfold object_name_of at 1.
  rewrite relative_path_of_clean.
  - apply replace_id. by apply replace_no_old.
  - apply find_replace; [done|]. apply relative_path_no_marker.
Qed.

Lemma drop_replace n s old new :
  drop n (Py.replace s old new) = Py.replace (drop n s) old new.
Proof. unfold Py.replace. by rewrite fmap_drop. Qed.

Lemma take_replace n s old new :
  take n (Py.replace s old new) = Py.replace (take n s) old new.
Proof. unfold Py.replace. by rewrite fmap_take. Qed.

(** A path written with backslashes and the same path written with slashes
    get the same key. *)
Theorem object_name_separator_blind (file_path : str) :
  object_name_of (Py.replace file_path "\" "/") = object_name_of file_path.
Proof.
  destruct slashes_not_in_marker as [Hback Hslash].
  assert (∀ s, Py.replace (Py.replace s "\" "/") "\" "/" = Py.replace s "\" "/")
    as Hrr by (intros s; apply replace_id; by apply replace_no_old).
  assert (∀ x, Py.replace (Py.lstrip (Py.replace x "\" "/") ["/"%char; "\"%char]) "\" "/"
               = Py.replace (Py.lstrip x ["/"%char; "\"%char]) "\" "/") as Hl.
  { intros x. rewrite lstrip_replace; [apply Hrr | |];
      apply (bool_decide_unpack _); by vm_compute. }
  unfold object_name_of. rewrite !relative_path_unfold.
  rewrite (find_replace_eq file_path downloads "\"%char "/"%char) by done.
  destruct (Py.find file_path downloads) as [i|]; [|apply Hrr]. simpl.
  rewrite drop_replace.
  rewrite (find_replace_eq (drop _ file_path) downloads "\"%char "/"%char)
    by done.
  destruct (Py.find (drop _ file_path) downloads) as [j|]; [|apply Hl].
  rewrite take_replace. apply Hl.
Qed.

(** The positive side of the key derivation, on the example of the source
    comment. *)
Lemma object_name_single_marker_example :
  object_name_of (lit "downloads/douyin/anchor/video.mp4")
  = spec_object_key (lit "downloads/douyin/anchor/video.mp4") ∧
  spec_object_key (lit "downloads/douyin/anchor/video.mp4")
  = lit "douyin/anchor/video.mp4".
Proof.
  split; [|reflexivity].
  apply object_name_single_marker; reflexivity.
Defined.

End ObjectKeyFacts.

(** * More on [upload_file] and [upload_video_to_r2] *)

Lemma rfind_Some (s : str) (c : ascii) (i : nat) :
  Py.rfind s c = Some i →
  ∃ pre post, s = pre ++ c :: post ∧ length pre = i ∧ c ∉ post.
Proof.
  revert i. induction s as [|a s IH]; intros i; [done|]. simpl.
  destruct (Py.rfind s c) as [j|] eqn:Ej.
  - intros [= <-]. destruct (IH j eq_refl) as (pre & post & -> & <- & Hpost).
    by exists (a :: pre), post.
  - case_decide as Ha; [|done]. intros [= <-]. subst a.
    exists [], s. split_and!; [done..|].
    clear IH. induction s as [|b s IH]; [by apply not_elem_of_nil|].
    simpl in Ej. destruct (Py.rfind s c); [done|].
    case_decide; [done|]. apply not_elem_of_cons. split; [done|]. by apply IH.
Qed.

Lemma rfind_is_None (s : str) (c : ascii) : Py.rfind s c = None → c ∉ s.
Proof.
  induction s as [|b s IH]; [intros _; by apply not_elem_of_nil|].
  simpl. destruct (Py.rfind s c); [done|].
  case_decide; [done|]. intros _. apply not_elem_of_cons. split; [done|].
  by apply IH.
Qed.

(** [os.path.basename] cuts after the last slash: what it returns has no
    slash, and the path is a directory part, empty or ending in a slash,
    followed by it. *)
Lemma basename_spec (p : str) :
  ("/"%char ∉ OsPath.basename p) ∧
  ∃ dir, p = dir ++ OsPath.basename p ∧ (dir = [] ∨ last dir = Some "/"%char).
Proof.
  unfold OsPath.basename. destruct (Py.rfind p "/") as [i|] eqn:Ei.
  - destruct (rfind_Some _ _ _ Ei) as (pre & post & -> & <- & Hpost).
    rewrite (cons_middle _ pre post), (assoc_L (++)).
    replace (S (length pre)) with (length (pre ++ ["/"%char]))
      by (rewrite length_app; simpl; lia).
    rewrite drop_app_length. split; [done|].
    exists (pre ++ ["/"%char]). split; [done|]. right. apply last_snoc.
  - split; [by apply rfind_is_None|]. exists []. by split; [|left].
Qed.

Lemma content_type_known (file_path : str) :
  _get_content_type file_path ∈
    lit <$> [ "video/mp4"; "video/x-matroska"; "video/x-flv"; "video/mp2t";
              "application/vnd.apple.mpegurl"; "audio/mpeg"; "audio/mp4";
              "audio/aac"; "text/plain"; "application/json";
              "application/octet-stream" ].
Proof.
  unfold _get_content_type.
  destruct (content_types !! _) as [mime|] eqn:E; simpl.
  - apply elem_of_list_to_map_2 in E.
    repeat (apply elem_of_cons in E as [[= _ ->]|E];
            [apply (bool_decide_unpack _); by vm_compute|]).
    by apply elem_of_nil in E.
  - apply (bool_decide_unpack _). by vm_compute.
Qed.

Lemma content_type_nonempty (file_path : str) : _get_content_type file_path ≠ [].
Proof.
  pose proof (content_type_known file_path) as H. intros E. rewrite E in H.
  revert H. apply (bool_decide_unpack _). by vm_compute.
Qed.

Section UploadFileMore.

Variable s3_upload : world → put_request → option exn.

(** [upload_file] leaves the local files and the removal log alone; it calls
    the storage client at most once, for the given file and the uploader's
    bucket, and exactly when the file exists. *)
Theorem upload_file_frame self file_path object_name metadata content_type w :
  ∃ r w',
    upload_file s3_upload self file_path object_name metadata content_type w
    = (Return r, w') ∧
    files w' = files w ∧
    removes w' = removes w ∧
    match files w !! file_path with
    | None => puts w' = puts w
    | Some _ =>
        ∃ req, puts w' = puts w ++ [req] ∧
               put_file req = file_path ∧ put_bucket req = bucket_name self
    end.
Proof.
  rewrite upload_file_run.
  destruct (files w !! file_path) as [size|]; eexists _, _;
    (split; [done|]); [|done].
  split_and!; [done..|]. by eexists.
Qed.

(** Without [object_name] the file is stored under its base name: the key
    sent has no slash, the path ends with it, and the result reports it,
    whether the upload went through or not. *)
Theorem upload_file_default_key self file_path metadata content_type w :
  is_Some (files w !! file_path) →
  ∃ r w' req,
    upload_file s3_upload self file_path None metadata content_type w
    = (Return r, w') ∧
    puts w' = puts w ++ [req] ∧
    r !! "object_name" = Some (VStr (put_key req)) ∧
    ("/"%char ∉ put_key req) ∧
    ∃ dir, file_path = dir ++ put_key req ∧
           (dir = [] ∨ last dir = Some "/"%char).
Proof.
  intros [size Hsize]. rewrite upload_file_run, Hsize.
  eexists _, _, _. split; [done|]. simpl. split; [done|].
  destruct (basename_spec file_path) as [? ?]. split; [|done].
  destruct (s3_upload w _); [done|].
  unfold success_result. destruct (public_url self) as [url|]; [|done].
  by case_bool_decide.
Qed.

(** Without [content_type] every upload carries a content type, one of the
    ten of the table or [application/octet-stream], and an empty metadata
    dictionary is not sent at all. *)
Theorem upload_file_extra_args self file_path object_name metadata w :
  is_Some (files w !! file_path) →
  ∃ r w' req mime,
    upload_file s3_upload self file_path object_name metadata None w
    = (Return r, w') ∧
    puts w' = puts w ++ [req] ∧
    ContentType (put_extra req) = Some mime ∧
    mime = _get_content_type file_path ∧
    mime ∈ lit <$> [ "video/mp4"; "video/x-matroska"; "video/x-flv";
                     "video/mp2t"; "application/vnd.apple.mpegurl";
                     "audio/mpeg"; "audio/mp4"; "audio/aac"; "text/plain";
                     "application/json"; "application/octet-stream" ] ∧
    Metadata (put_extra req) =
      match metadata with
      | Some m => if bool_decide (m = ∅) then None else Some m
      | None => None
      end.
Proof.
  intros [size Hsize]. rewrite upload_file_run, Hsize.
  eexists _, _, _, _. split; [done|]. split; [done|].
  unfold upload_request.
  cbn [put_extra ContentType Metadata default from_option].
  rewrite bool_decide_false by apply content_type_nonempty.
  split_and!; [done..| |done]. apply content_type_known.
Qed.

End UploadFileMore.

Section UploadVideoMore.

Variable s3_upload : world → put_request → option exn.
Variable remove_error : world → str → option exn.
Variable clock : world → str.

(** For an existing file [upload_video_to_r2] calls the storage client once:
    the uploader's bucket, the derived key, the content type of the path and
    the three metadata entries, the time stamp among them.  The result
    reports the derived key. *)
Theorem upload_video_to_r2_request
    uploader file_path platform anchor_name delete_after_upload w :
  is_Some (files w !! file_path) →
  ∃ r w',
    upload_video_to_r2 s3_upload remove_error clock uploader file_path
      platform anchor_name delete_after_upload w = (Return r, w') ∧
    puts w' = puts w ++
      [ {| put_file := file_path;
           put_bucket := bucket_name uploader;
           put_key := object_name_of file_path;
           put_extra :=
             {| ContentType := Some (_get_content_type file_path);
                Metadata := Some {[ "platform" := platform;
                                    "anchor" := anchor_name;
                                    "upload_timestamp" := clock w ]} |} |} ] ∧
    r !! "object_name" = Some (VStr (object_name_of file_path)).
Proof.
  intros [size Hsize]. rewrite upload_video_to_r2_run, Hsize.
  assert (video_request clock uploader file_path platform anchor_name w =
          {| put_file := file_path;
             put_bucket := bucket_name uploader;
             put_key := object_name_of file_path;
             put_extra :=
               {| ContentType := Some (_get_content_type file_path);
                  Metadata := Some {[ "platform" := platform;
                                      "anchor" := anchor_name;
                                      "upload_timestamp" := clock w ]} |} |})
    as Hreq.
  { unfold video_request, upload_request.
    cbn [default from_option].
    rewrite bool_decide_false by apply content_type_nonempty.
    rewrite bool_decide_false by apply insert_non_empty. done. }
  assert (∀ size,
            success_result uploader (object_name_of file_path) size
              !! "object_name" = Some (VStr (object_name_of file_path)))
    as Hname.
  { intros n. unfold success_result.
    destruct (public_url uploader); [|done]. by case_bool_decide. }
  cbn zeta. rewrite Hreq. destruct (s3_upload w _).
  { by eexists _, _. }
  destruct delete_after_upload; [|by eexists _, _].
  destruct (remove_error _ _); eexists _, _; (split; [done|]);
    (split; [done|]); by rewrite lookup_insert_ne.
Qed.

(** For a missing file [upload_video_to_r2] does nothing: no storage call,
    no removal, and the two-field failure result. *)
Theorem upload_video_to_r2_missing
    uploader file_path platform anchor_name delete_after_upload w :
  files w !! file_path = None →
  upload_video_to_r2 s3_upload remove_error clock uploader file_path
    platform anchor_name delete_after_upload w
  = (Return {[ "success" := VBool false;
               "error" := VStr (lit "File not found") ]}, w).
Proof. intros H. by rewrite upload_video_to_r2_run, H. Qed.

(** [upload_single_file] run on a world. *)
Lemma upload_single_file_run uploader file_path platform anchor delete_after w :
  upload_single_file s3_upload remove_error clock uploader file_path
    platform anchor delete_after w =
    match files w !! file_path with
    | None => (Return false, w)
    | Some _ =>
        let req := video_request clock uploader file_path platform anchor w in
        let w1 := log_put req w in
        match s3_upload w req with
        | Some _ => (Return false, w1)
        | None =>
            if delete_after then
              match remove_error w1 file_path with
              | Some _ => (Return true, log_remove file_path w1)
              | None =>
                  (Return true,
                   set_files (delete file_path (files w))
                     (log_remove file_path w1))
              end
            else (Return true, w1)
        end
    end.
Proof.
  unfold upload_single_file.
  unfold mbind at 1. unfold M_bind at 1. unfold os_path_exists.
  destruct (files w !! file_path) as [size|] eqn:Ef; simpl; [|done].
  unfold mbind, M_bind. rewrite upload_video_to_r2_run, Ef. simpl.
  destruct (s3_upload w _); [done|].
  destruct delete_after; [|by rewrite success_result_success].
  destruct (remove_error _ _);
    by rewrite lookup_insert_ne, success_result_success.
Qed.

(** [upload_single_file] answers [True] exactly when the file is there and
    the storage client took it; a failed removal does not turn it into
    [False].  For a missing file it leaves the world as it was. *)
Theorem upload_single_file_result
    uploader file_path platform anchor delete_after w :
  ∃ b w',
    upload_single_file s3_upload remove_error clock uploader file_path
      platform anchor delete_after w = (Return b, w') ∧
    (b = true ↔
       is_Some (files w !! file_path) ∧
       s3_upload w (video_request clock uploader file_path platform anchor w)
       = None) ∧
    (files w !! file_path = None → w' = w).
Proof.
  unfold upload_single_file.
  unfold mbind at 1. unfold M_bind at 1. unfold os_path_exists.
  destruct (files w !! file_path) as [size|] eqn:Ef; simpl.
  2:{ eexists _, _. split; [done|]. split; [|done].
      split; [done | by intros [[? ?] _]]. }
  unfold mbind, M_bind. rewrite upload_video_to_r2_run, Ef. simpl.
  destruct (s3_upload w _).
  { eexists _, _. split; [done|]. simpl. split; [|done].
    split; [done | by intros [_ ?]]. }
  destruct delete_after.
  2:{ eexists _, _. split; [done|]. rewrite success_result_success. simpl.
      split; [|done]. split; [eauto | done]. }
  destruct (remove_error _ _); eexists _, _; (split; [done|]);
    rewrite lookup_insert_ne, success_result_success by done; simpl;
    (split; [|done]); (split; [eauto | done]).
Qed.

(** After an upload that removed the local file, uploading the same path
    again answers [False] without a storage call. *)
Theorem upload_single_file_twice uploader file_path platform anchor w w1 :
  upload_single_file s3_upload remove_error clock uploader file_path
    platform anchor true w = (Return true, w1) →
  remove_error
    (log_put (video_request clock uploader file_path platform anchor w) w)
    file_path = None →
  files w1 !! file_path = None ∧
  ∀ delete_after,
    upload_single_file s3_upload remove_error clock uploader file_path
      platform anchor delete_after w1 = (Return false, w1).
Proof.
  intros Hrun Hrm.
  assert (files w1 !! file_path = None) as Hgone.
  { revert Hrun. unfold upload_single_file.
    unfold mbind at 1. unfold M_bind at 1. unfold os_path_exists.
    destruct (files w !! file_path) as [size|] eqn:Ef; simpl; [|done].
    unfold mbind, M_bind. rewrite upload_video_to_r2_run, Ef. simpl.
    destruct (s3_upload w _); [by intros [= ? <-]|].
    rewrite Hrm. intros [= _ <-]. simpl. apply lookup_delete_eq. }
  split; [done|]. intros delete_after.
  unfold upload_single_file.
  unfold mbind at 1. unfold M_bind at 1. unfold os_path_exists.
  by rewrite Hgone.
Qed.

End UploadVideoMore.

(** * More on [upload_directory] *)

Section UploadDirectoryMore.

Variable s3_upload : world → put_request → option exn.
Variable remove_error : world → str → option exn.
Variable clock : world → str.
Variable os_path_isdir : world → str → bool.
Variable os_walk : world → str → list (str * list str * list str).

(** What one round can do to the local files: nothing, or one [os.remove] of
    the file at hand, which either takes it away or fails. *)
Lemma upload_single_file_effects
    uploader file_path platform anchor delete_after w :
  ∃ b w',
    upload_single_file s3_upload remove_error clock uploader file_path
      platform anchor delete_after w = (Return b, w') ∧
    ((files w' = files w ∧ removes w' = removes w) ∨
     (delete_after = true ∧ b = true ∧
      removes w' = removes w ++ [file_path] ∧
      (files w' = files w ∨ files w' = delete file_path (files w)))).
Proof.
  unfold upload_single_file.
  unfold mbind at 1. unfold M_bind at 1. unfold os_path_exists.
  destruct (files w !! file_path) as [size|] eqn:Ef; simpl;
    [|eexists _, _; split; [done|]; by left].
  unfold mbind, M_bind. rewrite upload_video_to_r2_run, Ef. simpl.
  destruct (s3_upload w _); [eexists _, _; split; [done|]; by left|].
  destruct delete_after; [|eexists _, _; split; [done|]; by left].
  destruct (remove_error _ _); eexists _, _; (split; [done|]); right;
    rewrite lookup_insert_ne, success_result_success by done; simpl; eauto.
Qed.

Lemma upload_loop_effects uploader delete_after video_files :
  ∀ success_count fail_count w,
  ∃ s f w',
    upload_loop s3_upload remove_error clock uploader delete_after
      video_files success_count fail_count w = (Return (s, f), w') ∧
    files w' ⊆ files w ∧
    (∀ q, q ∉ video_files → files w' !! q = files w !! q) ∧
    (∃ removed, removes w' = removes w ++ removed ∧
                (∀ q, q ∈ removed → q ∈ video_files) ∧
                (delete_after = false → removed = [])) ∧
    (delete_after = false → files w' = files w).
Proof.
  induction video_files as [|file_path rest IH]; intros sc fc w.
  - eexists _, _, _. split; [done|]. split_and!; [done..| |done].
    exists []. by rewrite app_nil_r.
  - simpl. unfold mbind, M_bind.
    destruct (upload_single_file_effects uploader file_path
                (infer_labels file_path).1 (infer_labels file_path).2
                delete_after w) as (b & w1 & -> & Heff).
    destruct (IH (if b then S sc else sc) (if b then fc else S fc) w1)
      as (s & f & w' & Hrun & Hsub & Hother & (removed & Hrem & Hin & Hnil)
          & Hsame).
    exists s, f, w'. split; [by destruct b|].
    destruct Heff as [[Hf Hr]|(-> & _ & Hr & Hf)].
    + rewrite Hf in Hsub, Hother, Hsame. rewrite Hr in Hrem.
      split_and!; [done| | |done].
      * intros q [? ?]%not_elem_of_cons. by apply Hother.
      * exists removed. split; [done|]. split; [|done].
        intros q ?. right. by apply Hin.
    + split_and!.
      * destruct Hf as [Hf|Hf]; rewrite Hf in Hsub; [done|].
        etrans; [done|]. apply delete_subseteq.
      * intros q [? ?]%not_elem_of_cons. rewrite Hother by done.
        destruct Hf as [Hf|Hf]; rewrite Hf; [done|]. by apply lookup_delete_ne.
      * exists (file_path :: removed). rewrite Hrem, Hr.
        split; [by rewrite <- (assoc_L (++))|]. split; [|done].
        intros q [->|?]%elem_of_cons; [left | right; by apply Hin].
      * done.
Qed.

(** Whatever the directory, the filter and the storage client do,
    [upload_directory] returns; it never adds a local file, touches no file
    outside the matched ones, and calls [os.remove] only on matched files.
    Without [delete_after] it removes nothing at all. *)
Theorem upload_directory_effects
    uploader dir_path delete_after format_filter w :
  let video_files :=
    find_video_files (video_extensions format_filter) (os_walk w dir_path) in
  ∃ counts w',
    upload_directory s3_upload remove_error clock os_path_isdir os_walk
      uploader dir_path delete_after format_filter w = (Return counts, w') ∧
    files w' ⊆ files w ∧
    (∀ q, q ∉ video_files → files w' !! q = files w !! q) ∧
    (∃ removed, removes w' = removes w ++ removed ∧
                (∀ q, q ∈ removed → q ∈ video_files) ∧
                (delete_after = false → removed = [])) ∧
    (delete_after = false → files w' = files w).
Proof.
  intros video_files. unfold upload_directory.
  destruct (os_path_isdir w dir_path); simpl.
  - unfold mbind, M_bind. fold video_files.
    destruct (upload_loop_effects uploader delete_after video_files 0 0 w)
      as (s & f & w' & -> & ?). by eexists _, _.
  - eexists _, _. split; [done|]. split_and!; [done..| |done].
    exists []. split; [by rewrite app_nil_r|]. split; [|done].
    by intros q ?%elem_of_nil.
Qed.

(** When the storage client turns every upload down, every matched file is
    counted as failed and no local file is removed, [delete_after] or not. *)
Lemma upload_loop_all_rejected uploader delete_after video_files :
  (∀ w req, is_Some (s3_upload w req)) →
  ∀ success_count fail_count w,
  ∃ w',
    upload_loop s3_upload remove_error clock uploader delete_after
      video_files success_count fail_count w
    = (Return (success_count, fail_count + length video_files)%nat, w') ∧
    files w' = files w ∧ removes w' = removes w.
Proof.
  intros Hrej. induction video_files as [|file_path rest IH]; intros sc fc w.
  - eexists. split; [|done]. simpl. by rewrite Nat.add_0_r.
  - simpl. unfold mbind, M_bind.
    rewrite (upload_single_file_run s3_upload remove_error clock).
    destruct (files w !! file_path) as [size|].
    + cbn zeta.
      destruct (Hrej w (video_request clock uploader file_path
                          (infer_labels file_path).1
                          (infer_labels file_path).2 w)) as [e ->].
      destruct (IH sc (S fc) (log_put (video_request clock uploader file_path
                          (infer_labels file_path).1
                          (infer_labels file_path).2 w) w))
        as (w' & -> & Hf' & Hr').
      exists w'. split; [f_equal; f_equal; f_equal; lia|]. by split.
    + destruct (IH sc (S fc) w) as (w' & -> & Hf' & Hr').
      exists w'. split; [f_equal; f_equal; f_equal; lia|]. by split.
Qed.

(** The same for a whole directory: the counters read 0 and the number of
    matched files, and the local files and the removal log are as before. *)
Theorem upload_directory_all_rejected
    uploader dir_path delete_after format_filter w :
  (∀ w req, is_Some (s3_upload w req)) →
  os_path_isdir w dir_path = true →
  ∃ w',
    upload_directory s3_upload remove_error clock os_path_isdir os_walk
      uploader dir_path delete_after format_filter w
    = (Return
         (Some (0, length (find_video_files (video_extensions format_filter)
                             (os_walk w dir_path)))%nat), w') ∧
    files w' = files w ∧ removes w' = removes w.
Proof.
  intros Hrej Hdir. unfold upload_directory. rewrite Hdir. simpl.
  unfold mbind, M_bind.
  destruct (upload_loop_all_rejected uploader delete_after
              (find_video_files (video_extensions format_filter)
                 (os_walk w dir_path)) Hrej 0 0 w) as (w' & -> & ?).
  by exists w'.
Qed.

(** When the storage client takes every upload and the matched files are
    distinct and present, all of them count as successes; with
    [delete_after] and an [os.remove] that never fails, none of them is left
    afterwards. *)
Lemma upload_loop_all_accepted uploader delete_after video_files :
  (∀ w req, s3_upload w req = None) →
  NoDup video_files →
  ∀ success_count fail_count w,
  (∀ q, q ∈ video_files → is_Some (files w !! q)) →
  ∃ w',
    upload_loop s3_upload remove_error clock uploader delete_after
      video_files success_count fail_count w
    = (Return (success_count + length video_files, fail_count)%nat, w') ∧
    (delete_after = true → (∀ w q, remove_error w q = None) →
     ∀ q, q ∈ video_files → files w' !! q = None).
Proof.
  intros Hacc Hnodup.
  induction video_files as [|file_path rest IH]; intros sc fc w Hall.
  - eexists. split; [simpl; by rewrite Nat.add_0_r|].
    by intros _ _ q ?%elem_of_nil.
  - apply NoDup_cons in Hnodup as [Hnotin Hnodup].
    simpl. unfold mbind, M_bind.
    destruct (upload_single_file_step s3_upload remove_error clock uploader
                file_path (infer_labels file_path).1 (infer_labels file_path).2
                delete_after w) as (b & w1 & Hrun & Hother & _).
    pose proof (upload_single_file_run s3_upload remove_error clock uploader
                  file_path (infer_labels file_path).1
                  (infer_labels file_path).2 delete_after w) as Hrun'.
    rewrite Hrun in Hrun'. rewrite Hrun.
    destruct (Hall file_path) as [size Hsize]; [by left|].
    rewrite Hsize in Hrun'. cbn zeta in Hrun'. rewrite Hacc in Hrun'.
    assert (b = true ∧
            (delete_after = true → (∀ w q, remove_error w q = None) →
             files w1 !! file_path = None)) as [-> Hnone].
    { destruct delete_after.
      - destruct (remove_error _ _) eqn:Er; injection Hrun' as -> ->;
          (split; [done|]); intros _ Hrm; [by rewrite Hrm in Er|].
        apply lookup_delete_eq.
      - by injection Hrun' as -> ->. }
    destruct (IH Hnodup (S sc) fc w1) as (w' & Hloop & Hgone).
    { intros q Hq. rewrite Hother; [apply Hall; by right|]. by intros ->. }
    exists w'. split; [rewrite Hloop; f_equal; f_equal; f_equal; lia|].
    intros -> Hrm q [->|Hq]%elem_of_cons; [|by apply Hgone].
    destruct (upload_loop_effects uploader true rest (S sc) fc w1)
      as (s & f & w'' & Hloop' & Hsub & _).
    rewrite Hloop in Hloop'. injection Hloop' as _ _ <-.
    eapply lookup_weaken_None; [by apply Hnone|done].
Qed.

(** The same for a whole directory: the counters read the number of
    matched files and 0, and with [delete_after] and an [os.remove] that
    never fails no matched file is left. *)
Theorem upload_directory_all_accepted
    uploader dir_path delete_after format_filter w :
  let video_files :=
    find_video_files (video_extensions format_filter) (os_walk w dir_path) in
  (∀ w req, s3_upload w req = None) →
  os_path_isdir w dir_path = true →
  NoDup video_files →
  (∀ q, q ∈ video_files → is_Some (files w !! q)) →
  ∃ w',
    upload_directory s3_upload remove_error clock os_path_isdir os_walk
      uploader dir_path delete_after format_filter w
    = (Return (Some (length video_files, 0)%nat), w') ∧
    (delete_after = true → (∀ w q, remove_error w q = None) →
     ∀ q, q ∈ video_files → files w' !! q = None).
Proof.
  intros video_files Hacc Hdir Hnodup Hall.
  unfold upload_directory. rewrite Hdir. simpl. unfold mbind, M_bind.
  fold video_files.
  destruct (upload_loop_all_accepted uploader delete_after video_files
              Hacc Hnodup 0 0 w Hall) as (w' & -> & ?).
  by exists w'.
Qed.

End UploadDirectoryMore.

(** * More on the extension filter *)

Section FilterFacts.

Implicit Types (walk : list (str * list str * list str)) (exts : gset str).

(** A suffix is empty, or a dot followed by at least one character and no
    further dot. *)
Lemma suffix_shape (p : str) :
  OsPath.suffix p = [] ∨
  ∃ e, OsPath.suffix p = "."%char :: e ∧ e ≠ [] ∧ "."%char ∉ e.
Proof.
  unfold OsPath.suffix. destruct (Py.rfind _ _) as [i|] eqn:Ei; [|by left].
  destruct (rfind_Some _ _ _ Ei) as (pre & post & Hn & <- & Hpost).
  rewrite Hn. destruct ((0 <? _) && _)%nat eqn:Hc; [|by left].
  right. exists post. rewrite drop_app_length. split; [done|]. split; [|done].
  intros ->. apply andb_true_iff in Hc as [_ Hc%Nat.ltb_lt].
  rewrite length_app in Hc. simpl in Hc. lia.
Qed.

Lemma lower_char_dot (c : ascii) : Py.lower_char c = "."%char → c = "."%char.
Proof. destruct c as [[] [] [] [] [] [] [] []]; by vm_compute. Qed.

Lemma lower_no_dot (e : str) : "."%char ∉ e → "."%char ∉ Py.lower e.
Proof.
  intros He (c & Hc%eq_sym%lower_char_dot & Hin)%list_elem_of_fmap.
  by subst c.
Qed.

(** The lower-cased suffix of a file never starts with two dots. *)
Lemma lower_suffix_one_dot (file rest : str) :
  Py.lower (OsPath.suffix file) ≠ "."%char :: "."%char :: rest.
Proof.
  destruct (suffix_shape file) as [->|(e & -> & _ & Hdot)]; [done|].
  intros [= He]. apply (lower_no_dot e Hdot). rewrite He. by left.
Qed.

Lemma find_video_files_elem exts walk (path : str) :
  path ∈ find_video_files exts walk ↔
  ∃ root dirs files file,
    (root, dirs, files) ∈ walk ∧ file ∈ files ∧
    path = OsPath.join root file ∧
    Py.lower (OsPath.suffix file) ∈ exts.
Proof.
  unfold find_video_files. rewrite list_elem_of_bind. split.
  - intros ([[root dirs] files] & Hin & Hwalk).
    apply list_elem_of_bind in Hin as (file & Hin & Hfile).
    case_bool_decide as Hext; [|by apply elem_of_nil in Hin].
    apply list_elem_of_singleton in Hin as ->.
    by exists root, dirs, files, file.
  - intros (root & dirs & files & file & Hwalk & Hfile & -> & Hext).
    exists (root, dirs, files). split; [|done].
    apply list_elem_of_bind. exists file. split; [|done].
    rewrite bool_decide_true by done. by apply list_elem_of_singleton.
Qed.

(** Filter entries are to be written without their dot: when every entry of
    the filter starts with a dot, no file at all is selected. *)
Theorem dotted_filter_selects_nothing (format_filter : str) walk :
  format_filter ≠ [] →
  (∀ fmt, fmt ∈ Py.split format_filter (lit ",") →
          ∃ rest, Py.strip fmt = "."%char :: rest) →
  find_video_files (video_extensions (Some format_filter)) walk = [].
Proof.
  intros Hne Hdots. apply elem_of_nil_inv. intros path.
  rewrite find_video_files_elem.
  intros (root & dirs & files & file & _ & _ & _ & Hext).
  unfold video_extensions in Hext. rewrite bool_decide_false in Hext by done.
  apply elem_of_list_to_set, list_elem_of_fmap in Hext as (fmt & Hext & Hfmt).
  destruct (Hdots fmt Hfmt) as [rest Hrest]. rewrite Hrest in Hext.
  by apply lower_suffix_one_dot in Hext.
Qed.


End FilterFacts.

(** * Platform and anchor read off a path *)

Section Labels.

Implicit Types (x r : str) (comps pre rest : list str) (c : ascii).

Lemma split_app_sep x r c :
  c ∉ x → Py.split (x ++ c :: r) [c] = x :: Py.split r [c].
Proof.
  induction x as [|a x IH]; simpl.
  - intros _. by rewrite split_cons_char, decide_True.
  - intros [? ?]%not_elem_of_cons.
    rewrite split_cons_char, decide_False by done. by rewrite IH.
Qed.

Lemma split_no_sep x c : c ∉ x → Py.split x [c] = [x].
Proof. intros. by rewrite split_unfold, find_char_None. Qed.

(** Splitting undoes joining. *)
Lemma split_join comps c :
  comps ≠ [] → Forall (λ x, c ∉ x) comps →
  Py.split (Py.join [c] comps) [c] = comps.
Proof.
  induction comps as [|x comps IH]; [done|]. intros _ [Hx Hall]%Forall_cons.
  destruct comps as [|y comps]; [by apply split_no_sep|].
  change (Py.join [c] (x :: y :: comps))
    with (x ++ c :: Py.join [c] (y :: comps)).
  rewrite split_app_sep by done. by rewrite IH.
Qed.

Lemma join_head_not_slash comps :
  comps ≠ [] → Forall clean comps →
  Py.startswith (Py.join ["/"%char] comps) ["/"%char] = false.
Proof.
  destruct comps as [|x comps]; [done|]. intros _ [(Hne & _ & Hs) _]%Forall_cons.
  destruct x as [|a x]; [done|]. apply not_elem_of_cons in Hs as [? _].
  destruct comps; simpl; by rewrite decide_False.
Qed.

Lemma filter_clean comps :
  Forall clean comps →
  filter (λ x, x ≠ [] ∧ x ≠ ["."%char]) comps = comps.
Proof.
  induction 1 as [|x comps (? & ? & _) _ IH]; [done|].
  by rewrite filter_cons_True, IH.
Qed.

Lemma clean_no_slash comps : Forall clean comps → Forall (λ x, "/"%char ∉ x) comps.
Proof. intros H. eapply Forall_impl; [done|]. by intros x (_ & _ & ?). Qed.

(** The parts of a relative and of an absolute path built from clean
    components. *)
Lemma parts_join comps :
  comps ≠ [] → Forall clean comps →
  OsPath.parts (Py.join ["/"%char] comps) = comps.
Proof.
  intros Hne Hclean. unfold OsPath.parts, OsPath.tail_parts.
  rewrite split_join by auto using clean_no_slash.
  rewrite filter_clean by done.
  pose proof (join_head_not_slash comps Hne Hclean) as Hhead.
  destruct (Py.join ["/"%char] comps) as [|a [|b s]]; try done;
    simpl in *; by case_decide.
Qed.

Lemma parts_join_absolute comps :
  comps ≠ [] → Forall clean comps →
  OsPath.parts ("/"%char :: Py.join ["/"%char] comps) = ["/"%char] :: comps.
Proof.
  intros Hne Hclean. unfold OsPath.parts, OsPath.tail_parts.
  rewrite split_cons_char, decide_True by done.
  rewrite split_join by auto using clean_no_slash.
  rewrite filter_cons_False by (by intros [? _]).
  rewrite filter_clean by done.
  pose proof (join_head_not_slash comps Hne Hclean) as Hhead.
  destruct (Py.join ["/"%char] comps) as [|a s]; [done|].
  simpl in *. by rewrite Hhead.
Qed.

Lemma find_marker pre rest :
  downloads ∉ pre →
  list_find (λ x, x = downloads) (pre ++ downloads :: rest)
  = Some (length pre, downloads).
Proof.
  intros Hpre. apply list_find_Some. split_and!; [|done|].
  - by rewrite lookup_app_r, Nat.sub_diag.
  - intros j y Hj Hlt ->. apply Hpre.
    rewrite lookup_app_l in Hj by done. by eapply list_elem_of_lookup_2.
Qed.

Lemma infer_labels_parts (file_path : str) pre platform anchor rest :
  OsPath.parts file_path = pre ++ downloads :: platform :: anchor :: rest →
  downloads ∉ pre →
  infer_labels file_path = (platform, anchor).
Proof.
  intros Hparts Hpre. unfold infer_labels. rewrite Hparts.
  rewrite find_marker by done.
  rewrite bool_decide_true by (rewrite elem_of_app; right; by left).
  replace (3 <=? length _)%nat with true
    by (symmetry; apply Nat.leb_le; rewrite length_app; simpl; lia).
  simpl. rewrite !lookup_app_r by lia.
  by replace (length pre + 1 - length pre)%nat with 1%nat by lia;
     replace (length pre + 2 - length pre)%nat with 2%nat by lia.
Qed.

(** For a path made of clean components, relative or absolute, the two
    components after the first [downloads] component are the platform and
    the anchor; the anchor is the file name itself when the file lies
    directly in the platform directory. *)
Theorem infer_labels_after_marker (absolute : bool) pre
    (platform anchor : str) rest :
  Forall clean (pre ++ downloads :: platform :: anchor :: rest) →
  downloads ∉ pre →
  infer_labels
    ((if absolute then ["/"%char] else []) ++
     Py.join ["/"%char] (pre ++ downloads :: platform :: anchor :: rest))
  = (platform, anchor).
Proof.
  intros Hclean Hpre.
  assert (pre ++ downloads :: platform :: anchor :: rest ≠ []) as Hne
    by (by destruct pre).
  destruct absolute; simpl.
  - apply (infer_labels_parts _ (["/"%char] :: pre) platform anchor rest).
    + by rewrite parts_join_absolute.
    + apply not_elem_of_cons. split; [done|]. done.
  - apply (infer_labels_parts _ pre platform anchor rest); [|done].
    by rewrite parts_join.
Qed.

(** Without a [downloads] component, or with fewer than two components
    after it, both labels are ["unknown"]. *)
Theorem infer_labels_unknown comps :
  comps ≠ [] → Forall clean comps →
  (downloads ∉ comps ∨
   ∃ pre tail, comps = pre ++ downloads :: tail ∧ (downloads ∉ pre) ∧
               (length tail < 2)%nat) →
  infer_labels (Py.join ["/"%char] comps) = (lit "unknown", lit "unknown").
Proof.
  intros Hne Hclean Hcase. unfold infer_labels. rewrite parts_join by done.
  destruct Hcase as [Hno|(pre & tail & -> & Hpre & Hlen)].
  - rewrite bool_decide_false by done. by rewrite andb_false_r.
  - rewrite find_marker by done.
    destruct (_ && _); [|done].
    rewrite (lookup_ge_None_2 _ (length pre + 2));
      [by destruct (_ !! _)|].
    rewrite length_app. simpl. lia.
Qed.

End Labels.

(** * The bucket operations *)

Section BucketFacts.

Variable s3_delete_object : world → str → str → option exn.
Variable s3_head_object : world → str → str → option exn.
Variable s3_list_objects_v2 : world → str → str → Z → exn + option (list str).

(** The three operations on a normal answer and on a [ClientError]: none of
    them raises then, apart from [file_exists] on an error response without
    a code.  [file_exists] answers [False] for every code, so a failed check
    reads like a missing object. *)
Theorem bucket_operations_on_client_error
    self object_name prefix max_keys w :
  delete_file s3_delete_object self object_name w =
    (match s3_delete_object w (bucket_name self) object_name with
     | None => Return true
     | Some (ClientError _ _) => Return false
     | Some e => Raise e
     end, w) ∧
  list_files s3_list_objects_v2 self prefix max_keys w =
    (match s3_list_objects_v2 w (bucket_name self) prefix max_keys with
     | inr (Some keys) => Return keys
     | inr None | inl (ClientError _ _) => Return []
     | inl e => Raise e
     end, w) ∧
  file_exists s3_head_object self object_name w =
    (match s3_head_object w (bucket_name self) object_name with
     | None => Return true
     | Some (ClientError error _) =>
         match error ≫= Code with
         | Some _ => Return false
         | None =>
             Raise (OtherException
                      match error with
                      | Some _ => lit "'Code'"
                      | None => lit "'Error'"
                      end)
         end
     | Some e => Raise e
     end, w).
Proof.
  split_and!.
  - unfold delete_file, try_except, client_call, mbind, M_bind.
    by destruct (s3_delete_object w _ _) as [[]|].
  - unfold list_files, try_except.
    by destruct (s3_list_objects_v2 w _ _ _) as [[]|[]].
  - unfold file_exists, try_except, client_call, mbind, M_bind.
    destruct (s3_head_object w _ _) as [[[[[code|] msg]|] text|text|text]|];
      try done.
    simpl. by case_bool_decide.
Qed.

(** Unlike [upload_file], the three operations handle [ClientError] only:
    any other exception of the storage client, a connection failure for
    one, comes out of them as it is. *)
Theorem bucket_operations_let_errors_through
    self object_name prefix max_keys w (e : exn) :
  (∀ error text, e ≠ ClientError error text) →
  (s3_delete_object w (bucket_name self) object_name = Some e →
   delete_file s3_delete_object self object_name w = (Raise e, w)) ∧
  (s3_head_object w (bucket_name self) object_name = Some e →
   file_exists s3_head_object self object_name w = (Raise e, w)) ∧
  (s3_list_objects_v2 w (bucket_name self) prefix max_keys = inl e →
   list_files s3_list_objects_v2 self prefix max_keys w = (Raise e, w)).
Proof.
  intros Hne.
  unfold delete_file, file_exists, list_files, try_except, client_call,
    mbind, M_bind.
  split_and!; intros ->; destruct e as [error text| |]; try done;
    by destruct (Hne error text).
Qed.

End BucketFacts.

(** * Construction from the configuration *)

Section ConstructionFacts.

Variable BOTO3_AVAILABLE : bool.
Variable boto3_client : str → str → str → option exn.

Lemma or_None_Some (s t : str) : or_None s = Some t → t = s ∧ s ≠ [].
Proof. unfold or_None. case_bool_decide; [done|]. by intros [= <-]. Qed.





End ConstructionFacts.

(** * [main] *)

Section MainFacts.

Variable s3_upload : world → put_request → option exn.
Variable remove_error : world → str → option exn.
Variable clock : world → str.
Variable os_path_isdir : world → str → bool.
Variable os_walk : world → str → list (str * list str * list str).
Variable BOTO3_AVAILABLE : bool.
Variable boto3_client : str → str → str → option exn.

Abbreviation run_main :=
  (main s3_upload remove_error clock os_path_isdir os_walk BOTO3_AVAILABLE
     boto3_client).
Abbreviation run_upload :=
  (main_upload s3_upload remove_error clock os_path_isdir os_walk).

(** The upload step of [main] returns; it removes no local file unless it
    was asked to delete. *)
Lemma main_upload_run args path uploader delete_after w :
  ∃ w',
    run_upload args path uploader delete_after w = (Return Finished, w') ∧
    (delete_after = false → files w' = files w ∧ removes w' = removes w).
Proof.
  unfold main_upload. destruct (arg_dir args).
  - unfold mbind, M_bind, upload_directory.
    destruct (os_path_isdir w path); cbn [negb]; [|by eexists].
    unfold mbind, M_bind.
    destruct (upload_loop_effects s3_upload remove_error clock uploader
                delete_after
                (find_video_files (video_extensions None) (os_walk w path))
                0 0 w)
      as (s & f & w' & -> & _ & _ & (removed & Hrem & _ & Hnil) & Hsame).
    exists w'. split; [done|]. intros ->. split; [by apply Hsame|].
    by rewrite Hrem, Hnil, app_nil_r.
  - unfold mbind, M_bind.
    destruct (upload_single_file_effects s3_upload remove_error clock uploader
                path (arg_platform args) (arg_anchor args) delete_after w)
      as (b & w' & -> & Heff).
    exists w'. split; [done|]. intros ->.
    by destruct Heff as [?|(? & _)].
Qed.


Lemma dict_get_insert_ne (d : gmap string str) (k k' : string) (v dflt : str) :
  k ≠ k' → dict_get (<[k := v]> d) k' dflt = dict_get d k' dflt.
Proof. intros. unfold dict_get. by rewrite lookup_insert_ne. Qed.

(** The [upload_format_filter] entry of the configuration has no effect:
    [main] behaves the same whatever it holds, and directory mode always
    selects by the built-in extensions. *)
Theorem main_ignores_format_filter config (filter filter' : str) args w :
  main s3_upload remove_error clock os_path_isdir os_walk BOTO3_AVAILABLE
    boto3_client (Some (<["upload_format_filter" := filter]> config)) args w
  = main s3_upload remove_error clock os_path_isdir os_walk BOTO3_AVAILABLE
      boto3_client (Some (<["upload_format_filter" := filter']> config)) args w.
Proof.
  unfold main. destruct (given (arg_path args)); [|done]. cbn [negb].
  destruct (arg_config args); [|done].
  rewrite (bool_decide_false (<["upload_format_filter" := filter]> config = ∅))
    by apply insert_non_empty.
  rewrite (bool_decide_false (<["upload_format_filter" := filter']> config = ∅))
    by apply insert_non_empty.
  unfold create_r2_uploader_from_config.
  rewrite !dict_get_insert_ne by done. done.
Qed.

(** [main] removes local files only on request: without [--delete], and
    without a yes token under [delete_after_upload] in configuration mode,
    the local files and the removal log are as before. *)
Theorem main_keeps_files read_config args w o w' :
  run_main read_config args w = (o, w') →
  arg_delete args = false →
  (∀ config,
     arg_config args = true → read_config = Some config →
     dict_get config "delete_after_upload" (lit "否") ∉ yes_tokens) →
  files w' = files w ∧ removes w' = removes w.
Proof.
  intros Hrun Hdel Hcfg. revert Hrun. unfold main.
  destruct (given (arg_path args)); cbn [negb]; [|by intros [= <- <-]].
  destruct (arg_config args).
  - destruct read_config as [config|]; [|by intros [= <- <-]].
    case_bool_decide; [by intros [= <- <-]|].
    destruct (create_r2_uploader_from_config _ _ config) as [uploader|];
      [|by intros [= <- <-]].
    rewrite Hdel, bool_decide_false by by apply Hcfg. cbn [orb].
    destruct (main_upload_run args (default [] (arg_path args)) uploader
                false w) as (w1 & -> & Hsame).
    intros [= <- <-]. by apply Hsame.
  - destruct (_ && _); cbn [negb]; [|by intros [= <- <-]].
    destruct (R2Uploader_new _ _ _ _ _ _ _ _) as [e|uploader];
      [by intros [= <- <-]|].
    rewrite Hdel.
    destruct (main_upload_run args (default [] (arg_path args)) uploader
                false w) as (w1 & -> & Hsame).
    intros [= <- <-]. by apply Hsame.
Qed.

End MainFacts.

(** * Content type by file name *)


(** * The extras on the sample directory *)


Lemma upload_file_default_key_example :
  ∃ r w',
    upload_file sample_s3 sample_uploader (lit "downloads/douyin/annie/b.mkv")
      None None None sample_world = (Return r, w') ∧
    r !! "success" = Some (VBool false) ∧
    r !! "object_name" = Some (VStr (lit "b.mkv")).
Proof.
  destruct (upload_file_default_key sample_s3 sample_uploader
              (lit "downloads/douyin/annie/b.mkv") None None sample_world)
    as (r & w' & req & Hrun & Hputs & Hname & _); [by eexists|].
  exists r, w'. split; [done|].
  vm_compute in Hrun. injection Hrun as <- <-. by vm_compute.
Defined.

Lemma upload_file_extra_args_example :
  ∃ r w' req,
    upload_file sample_s3 sample_uploader (lit "downloads/douyin/annie/c.txt")
      None (Some ∅) None sample_world = (Return r, w') ∧
    puts w' = [req] ∧
    ContentType (put_extra req) = Some (lit "text/plain") ∧
    Metadata (put_extra req) = None.
Proof.
  destruct (upload_file_extra_args sample_s3 sample_uploader
              (lit "downloads/douyin/annie/c.txt") None (Some ∅) sample_world)
    as (r & w' & req & mime & Hrun & Hputs & Htype & -> & _ & Hmeta);
    [by eexists|].
  by exists r, w', req.
Defined.

Lemma upload_video_to_r2_request_example :
  ∃ r w' req,
    upload_video_to_r2 sample_s3 sample_remove sample_clock sample_uploader
      (lit "downloads/douyin/annie/a.mp4") (lit "douyin") (lit "annie") false
      sample_world = (Return r, w') ∧
    puts w' = [req] ∧
    put_key req = lit "douyin/annie/a.mp4" ∧
    (put_extra req).(Metadata) ≫= (.!! "upload_timestamp")
    = Some (lit "1729500000").
Proof.
  destruct (upload_video_to_r2_request sample_s3 sample_remove sample_clock
              sample_uploader (lit "downloads/douyin/annie/a.mp4")
              (lit "douyin") (lit "annie") false sample_world)
    as (r & w' & Hrun & Hputs & _); [by eexists|].
  eexists r, w', _. split; [done|]. split; [exact Hputs|]. by split.
Defined.

Lemma upload_video_to_r2_missing_example :
  upload_video_to_r2 sample_s3 sample_remove sample_clock sample_uploader
    (lit "downloads/douyin/annie/z.mp4") (lit "douyin") (lit "annie") true
    sample_world
  = (Return {[ "success" := VBool false;
               "error" := VStr (lit "File not found") ]}, sample_world).
Proof. by apply upload_video_to_r2_missing. Defined.

Lemma upload_single_file_twice_example :
  ∃ w1,
    upload_single_file sample_s3 sample_remove sample_clock sample_uploader
      (lit "downloads/douyin/annie/a.mp4") (lit "douyin") (lit "annie") true
      sample_world = (Return true, w1) ∧
    upload_single_file sample_s3 sample_remove sample_clock sample_uploader
      (lit "downloads/douyin/annie/a.mp4") (lit "douyin") (lit "annie") true
      w1 = (Return false, w1).
Proof.
  eexists. split; [by vm_compute|].
  refine (proj2 (upload_single_file_twice sample_s3 sample_remove sample_clock
                   sample_uploader (lit "downloads/douyin/annie/a.mp4")
                   (lit "douyin") (lit "annie") sample_world _ _ eq_refl)
            true).
  by vm_compute.
Defined.

Lemma upload_directory_all_rejected_example :
  ∃ w',
    upload_directory unreachable_s3 sample_remove sample_clock sample_isdir
      sample_walk sample_uploader (lit "downloads") true None sample_world
    = (Return (Some (0, 3)%nat), w') ∧
    files w' = files sample_world ∧ removes w' = [].
Proof.
  apply (upload_directory_all_rejected unreachable_s3 sample_remove
           sample_clock sample_isdir sample_walk sample_uploader
           (lit "downloads") true None sample_world);
    [by eexists | reflexivity].
Defined.

Lemma upload_directory_all_accepted_example :
  ∃ w',
    upload_directory accepting_s3 sample_remove sample_clock sample_isdir
      sample_walk sample_uploader (lit "downloads") true None sample_world
    = (Return (Some (3, 0)%nat), w') ∧
    files w' !! lit "downloads/douyin/annie/a.mp4" = None ∧
    files w' !! lit "downloads/douyin/annie/c.txt" = Some 30%Z.
Proof.
  destruct (upload_directory_all_accepted accepting_s3 sample_remove
              sample_clock sample_isdir sample_walk sample_uploader
              (lit "downloads") true None sample_world)
    as (w' & Hrun & Hgone).
  - done.
  - reflexivity.
  - apply (bool_decide_unpack _). by vm_compute.
  - apply Forall_forall. repeat constructor; by eexists.
  - exists w'. split; [exact Hrun|]. split.
    + apply Hgone; [done..|]. apply (bool_decide_unpack _). by vm_compute.
    + vm_compute in Hrun. by injection Hrun as <-.
Defined.

Lemma dotted_filter_selects_nothing_example :
  find_video_files (video_extensions (Some (lit ".mp4, .mkv")))
    (sample_walk sample_world (lit "downloads")) = [].
Proof.
  apply dotted_filter_selects_nothing; [done|].
  intros fmt Hfmt.
  assert (Py.split (lit ".mp4, .mkv") (lit ",") = [lit ".mp4"; lit " .mkv"])
    as Hsplit by reflexivity.
  rewrite Hsplit in Hfmt.
  apply elem_of_cons in Hfmt as [->|Hfmt]; [by eexists|].
  apply list_elem_of_singleton in Hfmt as ->. by eexists.
Defined.


Lemma sample_components_clean :
  Forall clean [lit "srv"; downloads; lit "douyin"; lit "annie"; lit "a.mp4"].
Proof.
  repeat constructor; try done; apply (bool_decide_unpack _); by vm_compute.
Qed.

Lemma infer_labels_after_marker_example :
  infer_labels (lit "/srv/downloads/douyin/annie/a.mp4")
  = (lit "douyin", lit "annie").
Proof.
  apply (infer_labels_after_marker true [lit "srv"] (lit "douyin")
           (lit "annie") [lit "a.mp4"]).
  - apply sample_components_clean.
  - apply (bool_decide_unpack _). by vm_compute.
Defined.

Lemma infer_labels_unknown_example :
  infer_labels (lit "srv/downloads/douyin") = (lit "unknown", lit "unknown").
Proof.
  apply (infer_labels_unknown [lit "srv"; downloads; lit "douyin"]).
  - done.
  - repeat constructor; try done; apply (bool_decide_unpack _); by vm_compute.
  - right. exists [lit "srv"], [lit "douyin"]. split_and!; [done| |simpl; lia].
    apply (bool_decide_unpack _). by vm_compute.
Defined.

Lemma bucket_operations_let_errors_through_example :
  let timeout := OtherException (lit "Connect timeout on endpoint URL") in
  delete_file (λ _ _ _, Some timeout) sample_uploader (lit "x/y.mp4")
    sample_world = (Raise timeout, sample_world) ∧
  file_exists (λ _ _ _, Some timeout) sample_uploader (lit "x/y.mp4")
    sample_world = (Raise timeout, sample_world).
Proof.
  intros timeout.
  destruct (bucket_operations_let_errors_through
              (λ _ _ _, Some timeout) (λ _ _ _, Some timeout)
              (λ _ _ _ _, inl timeout) sample_uploader (lit "x/y.mp4") []
              1000 sample_world timeout) as (Hdel & Hhead & _); [done|].
  split; [by apply Hdel | by apply Hhead].
Defined.




Lemma main_keeps_files_example :
  ∃ w',
    main sample_s3 sample_remove sample_clock sample_isdir sample_walk true
      sample_boto3_client (Some sample_config) sample_args sample_world
    = (Return Finished, w') ∧
    files w' = files sample_world ∧ removes w' = [].
Proof.
  eexists. split; [by vm_compute|].
  apply (main_keeps_files sample_s3 sample_remove sample_clock sample_isdir
           sample_walk true sample_boto3_client (Some sample_config)
           sample_args sample_world (Return Finished)).
  - by vm_compute.
  - done.
  - intros config _ [= <-]. apply (bool_decide_unpack _). by vm_compute.
Defined.
